(** * REDscript conflict reporter: scanner, report builder and impact scorer

    A shallow embedding of the core of the REDscript conflict reporter:

    - [scan_file] and [build_report] of [redscript_conflicts_report.py];
    - [compute_impact_unified], [classify_conflict_symptom] and the default
      profile lookup of [common/common_impact.py].
    - [method_has_wrap] and [make_conflict_anchor] of
      [common/common_util.py], the wrap index of
      [builders/report_sections.py] and [iter_conflicts] of
      [builders/report_builders.py].

    Conventions of the embedding.

    - Text is a [string] of ASCII code points.  The character classes the
      program uses ([str.strip], [str.lower], the regular-expression classes
      [\s], [\w], [\b] and [str.splitlines]) are written out for code
      points below 128; beyond ASCII, Python consults the Unicode tables.
    - Python objects read from a configuration are values of [pyval]; a
      float is a dyadic number, an infinity or a NaN.
    - Code under [try/except] is written in the [result] monad; an [except
      Exception] handler becomes a match on the outcome.
    - A [dict] is an association list in insertion order; [defaultdict]
      access is [dd_update]. *)

From Stdlib Require Import String Ascii List ZArith Lia Bool Arith Sorted.
From Stdlib Require Import Permutation DecimalString.
Import ListNotations.
Local Open Scope string_scope.
Local Open Scope nat_scope.

(** ** Python text primitives *)

Module PyStr.

(** [str.isspace] on one ASCII character; also the class [\s]. *)
Definition isspace (c : ascii) : bool :=
  let n := nat_of_ascii c in
  ((9 <=? n) && (n <=? 13)) || ((28 <=? n) && (n <=? 32)).

Definition lower_char (c : ascii) : ascii :=
  let n := nat_of_ascii c in
  if (65 <=? n) && (n <=? 90) then ascii_of_nat (n + 32) else c.

(** [s.lower()] *)
Fixpoint lower (s : string) : string :=
  match s with
  | EmptyString => EmptyString
  | String c r => String (lower_char c) (lower r)
  end.

(** [s.lstrip()] *)
Fixpoint lstrip (s : string) : string :=
  match s with
  | EmptyString => EmptyString
  | String c r => if isspace c then lstrip r else s
  end.

(** [s.rstrip()] *)
Fixpoint rstrip (s : string) : string :=
  match s with
  | EmptyString => EmptyString
  | String c r =>
      match rstrip r with
      | EmptyString => if isspace c then EmptyString else String c EmptyString
      | r' => String c r'
      end
  end.

(** [s.strip()] *)
Definition strip (s : string) : string := lstrip (rstrip s).

(** [needle in hay] *)
Fixpoint contains (needle hay : string) : bool :=
  prefix needle hay
  || match hay with
     | EmptyString => false
     | String _ r => contains needle r
     end.

Fixpoint drop (n : nat) (s : string) : string :=
  match n, s with
  | O, _ => s
  | S n', String _ r => drop n' r
  | S _, EmptyString => EmptyString
  end.

(** [s.startswith(p)] *)
Definition startswith (s p : string) : bool := prefix p s.

(** [s.split(sep)] for a one-character separator. *)
Fixpoint split_char (sep : ascii) (s : string) : list string :=
  match s with
  | EmptyString => [EmptyString]
  | String c r =>
      if Ascii.eqb c sep then EmptyString :: split_char sep r
      else match split_char sep r with
           | h :: t => String c h :: t
           | [] => [String c EmptyString]
           end
  end.

(** [s.split(sep, 1)[1]] when [sep in s]: the text after the first [sep]. *)
Fixpoint after_first (sep s : string) : option string :=
  if prefix sep s then Some (drop (String.length sep) s)
  else match s with
       | EmptyString => None
       | String _ r => after_first sep r
       end.

(** Line boundaries of [str.splitlines] in the ASCII range:
    LF, VT, FF, CR, FS, GS, RS (and CR LF as one boundary). *)
Definition is_linebreak (c : ascii) : bool :=
  let n := nat_of_ascii c in
  ((10 <=? n) && (n <=? 13)) || ((28 <=? n) && (n <=? 30)).

Definition is_cr (c : ascii) : bool := nat_of_ascii c =? 13.
Definition is_lf (c : ascii) : bool := nat_of_ascii c =? 10.

(** [s.splitlines()] *)
Fixpoint splitlines (s : string) : list string :=
  match s with
  | EmptyString => []
  | String c r =>
      if is_cr c then
        EmptyString ::
          match r with
          | String c2 r2 => if is_lf c2 then splitlines r2 else splitlines r
          | EmptyString => []
          end
      else if is_linebreak c then EmptyString :: splitlines r
      else match splitlines r with
           | h :: t => String c h :: t
           | [] => [String c EmptyString]
           end
  end.

Definition is_digit (c : ascii) : bool :=
  let n := nat_of_ascii c in (48 <=? n) && (n <=? 57).

Definition digit_value (c : ascii) : Z := Z.of_nat (nat_of_ascii c - 48).

Definition is_alpha (c : ascii) : bool :=
  let n := nat_of_ascii c in
  ((65 <=? n) && (n <=? 90)) || ((97 <=? n) && (n <=? 122)).

(** The class [[A-Za-z0-9_]], which is also [\w] on ASCII text. *)
Definition is_word (c : ascii) : bool :=
  is_alpha c || is_digit c || Ascii.eqb c "_"%char.

End PyStr.

(** ** Exceptions and Python values *)

Inductive exn : Type :=
| AttributeError
| TypeError
| ValueError
| OverflowError.

Inductive result (A : Type) : Type :=
| Ok (a : A)
| Raise (e : exn).
Arguments Ok {A} a.
Arguments Raise {A} e.

Definition bind {A B : Type} (m : result A) (k : A -> result B) : result B :=
  match m with
  | Ok a => k a
  | Raise e => Raise e
  end.

Notation "x <- m ;; k" := (bind m (fun x => k))
  (at level 61, m at next level, right associativity).

(** A float: the number [m * 2^e], an infinity or a NaN. *)
Inductive pyfloat : Type :=
| FFinite (m e : Z)
| FInf (negative : bool)
| FNaN.

#[warnings="-register-all"]
Inductive pyval : Type :=
| PNone
| PBool (b : bool)
| PInt (z : Z)
| PStr (s : string)
| PList (l : list pyval)
| PDict (d : list (string * pyval))
| PFloat (f : pyfloat).

(** Truth value of an object, as tested by [or] and [if]. *)
Definition truthy (v : pyval) : bool :=
  match v with
  | PNone => false
  | PBool b => b
  | PInt z => negb (z =? 0)%Z
  | PStr s => negb (s =? "")%string
  | PList l => match l with [] => false | _ => true end
  | PDict d => match d with [] => false | _ => true end
  | PFloat (FFinite m _) => negb (m =? 0)%Z
  | PFloat _ => true
  end.

(** [a or b] *)
Definition py_or (a b : pyval) : pyval := if truthy a then a else b.

Fixpoint assoc_get {V : Type} (k : string) (d : list (string * V)) : option V :=
  match d with
  | [] => None
  | (k', v) :: r => if (k' =? k)%string then Some v else assoc_get k r
  end.

(** [d.get(k, dflt)]; only a dict has the method. *)
Definition py_get (d : pyval) (k : string) (dflt : pyval) : result pyval :=
  match d with
  | PDict kv => Ok (match assoc_get k kv with Some v => v | None => dflt end)
  | _ => Raise AttributeError
  end.

(** [d.items()] *)
Definition py_items (d : pyval) : result (list (string * pyval)) :=
  match d with
  | PDict kv => Ok kv
  | _ => Raise AttributeError
  end.

(** Decimal digits with single underscores between digits, as [int] reads them. *)
Fixpoint digits_value (acc : Z) (after_digit : bool) (s : string) : option Z :=
  match s with
  | EmptyString => if after_digit then Some acc else None
  | String c r =>
      if PyStr.is_digit c then
        digits_value (10 * acc + PyStr.digit_value c) true r
      else if Ascii.eqb c "_"%char && after_digit then digits_value acc false r
      else None
  end.

(** The white space [int] skips at both ends of an ASCII string: blank,
    tab, line feed, vertical tab, form feed and carriage return. *)
Definition int_space (c : ascii) : bool :=
  let n := nat_of_ascii c in ((9 <=? n) && (n <=? 13)) || (n =? 32).

Fixpoint int_lstrip (s : string) : string :=
  match s with
  | EmptyString => EmptyString
  | String c r => if int_space c then int_lstrip r else s
  end.

Fixpoint int_rstrip (s : string) : string :=
  match s with
  | EmptyString => EmptyString
  | String c r =>
      match int_rstrip r with
      | EmptyString => if int_space c then EmptyString else String c EmptyString
      | r' => String c r'
      end
  end.

Fixpoint count_digits (s : string) : nat :=
  match s with
  | EmptyString => 0
  | String c r => (if PyStr.is_digit c then 1 else 0) + count_digits r
  end.

(** The default of [sys.int_max_str_digits]. *)
Definition int_max_str_digits : nat := 4300.

(** [int(s)] for a string; [None] when it raises [ValueError]. *)
Definition int_of_str (s : string) : option Z :=
  let t := int_lstrip (int_rstrip s) in
  if int_max_str_digits <? count_digits t then None
  else
    match t with
    | String "+"%char r => digits_value 0 false r
    | String "-"%char r => option_map Z.opp (digits_value 0 false r)
    | _ => digits_value 0 false t
    end.

(** [int(f)] for a float: the number cut towards zero. *)
Definition int_of_float (f : pyfloat) : result Z :=
  match f with
  | FFinite m e =>
      Ok (if (0 <=? e)%Z then m * 2 ^ e else Z.quot m (2 ^ (- e)))%Z
  | FInf _ => Raise OverflowError
  | FNaN => Raise ValueError
  end.

(** [int(v)] *)
Definition py_int (v : pyval) : result Z :=
  match v with
  | PInt z => Ok z
  | PBool b => Ok (if b then 1 else 0)%Z
  | PStr s => match int_of_str s with Some z => Ok z | None => Raise ValueError end
  | PFloat f => int_of_float f
  | PNone | PList _ | PDict _ => Raise TypeError
  end.

(** ** The data model of the report *)

Inductive annotation : Type :=
| replaceMethod
| wrapMethod
| replaceGlobal.

Definition annotation_eqb (a b : annotation) : bool :=
  match a, b with
  | replaceMethod, replaceMethod => true
  | wrapMethod, wrapMethod => true
  | replaceGlobal, replaceGlobal => true
  | _, _ => false
  end.

(** One entry of [entries].  [scan_file] creates it without the keys
    ['relpath'] and ['mod']; [build_report] adds them afterwards. *)
Record Occurrence : Type := mkOccurrence {
  occ_annotation : annotation;
  occ_class : string;
  occ_method : string;
  occ_func_sig : string;
  occ_file : string;
  occ_line : nat;
  occ_relpath : option string;
  occ_mod : option string
}.

(** ** common/common_impact.py *)

Module Impact.
Import PyStr.
Local Open Scope Z_scope.

Definition _IMPACT_DEFAULT_CONFIG : pyval :=
  PDict
    [ ("thresholds",
        PDict [ ("critical", PInt 95); ("high", PInt 70); ("medium", PInt 45) ]);
      ("weights",
        PDict
          [ ("per_mod", PInt 10);
            ("class_keywords",
              PDict [ ("vehicle", PInt 15); ("quest", PInt 12); ("player", PInt 12);
                      ("inventory", PInt 10); ("damage", PInt 10); ("ui", PInt 8);
                      ("hud", PInt 8); ("ink", PInt 6) ]);
            ("method_keywords",
              PDict [ ("update", PInt 12); ("tick", PInt 12); ("initialize", PInt 10);
                      ("init", PInt 10); ("onattach", PInt 8); ("onunattach", PInt 6);
                      ("refresh", PInt 8); ("calculate", PInt 8); ("resolve", PInt 8) ]);
            ("signature", PDict [ ("per_arg", PInt 3); ("has_return", PInt 6) ]);
            ("wrap_coexist_bonus", PInt 12) ]) ].

(** The test [isinstance(data, dict) and 'thresholds' in data and
    'weights' in data] of [_load_external_default]. *)
Definition is_profile (data : pyval) : bool :=
  match data with
  | PDict kv =>
      match assoc_get "thresholds" kv, assoc_get "weights" kv with
      | Some _, Some _ => true
      | _, _ => false
      end
  | _ => false
  end.

(** The loop over the candidate files of [_load_external_default].  A
    candidate is [None] when the file does not exist or reading or parsing
    it raises, and [Some data] when [json.loads] returns [data]. *)
Fixpoint first_profile (candidates : list (option pyval)) : option pyval :=
  match candidates with
  | [] => None
  | Some data :: rest => if is_profile data then Some data else first_profile rest
  | None :: rest => first_profile rest
  end.

(** [_load_external_default()]: the first argument is what the candidate
    files hold when the call is made, the second is the module variable
    [_IMPACT_EXTERNAL_CACHE]; the result carries the new value of the
    latter. *)
Definition _load_external_default
    (candidates : list (option pyval)) (cache : option pyval)
  : option pyval * option pyval :=
  match cache with
  | Some data => (Some data, cache)
  | None =>
      match first_profile candidates with
      | Some data => (Some data, Some data)
      | None => (None, None)
      end
  end.

(** [get_default_impact_config()] *)
Definition get_default_impact_config
    (candidates : list (option pyval)) (cache : option pyval)
  : pyval * option pyval :=
  let '(ext, cache') := _load_external_default candidates cache in
  (py_or (match ext with Some d => d | None => PNone end) _IMPACT_DEFAULT_CONFIG,
   cache').

Definition _SYMPTOM_KEYWORDS : list (string * list string) :=
  [ ("uiHud", ["ui"; "hud"; "ink"]);
    ("player", ["player"; "puppet"; "equipment"]);
    ("vehicle", ["vehicle"]);
    ("quest", ["quest"; "journal"; "fact"]);
    ("inventory", ["inventory"]);
    ("damage", ["damage"; "hit"]) ].

Definition classify_conflict_symptom (cls_name meth : string) : string :=
  let s := lower cls_name in
  match find (fun ckws => existsb (fun k => contains k s) (snd ckws))
             _SYMPTOM_KEYWORDS with
  | Some (code, _) => code
  | None => "other"
  end.

(** The tail of a match of [\((.*?)\)] after its opening parenthesis:
    the shortest run of characters other than a line feed that a closing
    parenthesis follows. *)
Fixpoint until_close (s : string) : option string :=
  match s with
  | EmptyString => None
  | String c r =>
      if Ascii.eqb c ")"%char then Some EmptyString
      else if is_lf c then None
      else option_map (String c) (until_close r)
  end.

(** Group 1 of [re.search(r'\((.*?)\)', s)]. *)
Fixpoint search_paren_group (s : string) : option string :=
  match s with
  | EmptyString => None
  | String c r =>
      if Ascii.eqb c "("%char then
        match until_close r with
        | Some g => Some g
        | None => search_paren_group r
        end
      else search_paren_group r
  end.

Definition nonblank (a : string) : bool := negb (strip a =? "")%string.

(** [args_count] of [compute_impact_unified] *)
Definition args_count (func_sig : string) : Z :=
  if (func_sig =? "")%string then 0
  else match search_paren_group func_sig with
       | Some g =>
           let inner := strip g in
           if (inner =? "")%string then 0
           else Z.of_nat (List.length (filter nonblank (split_char ","%char inner)))
       | None => 0
       end.

(** [has_return] of [compute_impact_unified] *)
Definition has_return (func_sig : string) : bool :=
  if (func_sig =? "")%string then false
  else match after_first "->" func_sig with
       | Some r =>
           let ret_part := strip r in
           negb (ret_part =? "")%string && negb (lower ret_part =? "void")%string
       | None => false
       end.

(** The loops [for kw, w in (...).items(): if kw in text: score += int(w)]. *)
Fixpoint keyword_score (items : list (string * pyval)) (text : string) (score : Z)
  : result Z :=
  match items with
  | [] => Ok score
  | (kw, w) :: rest =>
      if contains kw text then
        n <- py_int w ;; keyword_score rest text (score + n)
      else keyword_score rest text score
  end.

(** [int(d.get(k, dflt))] *)
Definition int_at (d : pyval) (k : string) (dflt : Z) : result Z :=
  v <- py_get d k (PInt dflt) ;; py_int v.

(** [(d.get(k) or {})] *)
Definition dict_at (d : pyval) (k : string) : result pyval :=
  v <- py_get d k PNone ;; Ok (py_or v (PDict [])).

(** The value of [score] when [sev] is chosen. *)
Definition impact_score (weights : pyval) (cls meth : string) (mods : list string)
    (entries : list Occurrence) (wrap_coexist : bool) : result Z :=
  let mod_count := Z.of_nat (List.length (nodup string_dec mods)) in
  let score := 0 in
  per_mod <- int_at weights "per_mod" 0 ;;
  let score := score + per_mod * mod_count in
  let cls_l := lower cls in
  let meth_l := lower meth in
  ckw <- dict_at weights "class_keywords" ;;
  citems <- py_items ckw ;;
  score <- keyword_score citems cls_l score ;;
  mkw <- dict_at weights "method_keywords" ;;
  mitems <- py_items mkw ;;
  score <- keyword_score mitems meth_l score ;;
  sig_w <- dict_at weights "signature" ;;
  per_arg <- int_at sig_w "per_arg" 0 ;;
  has_ret_w <- int_at sig_w "has_return" 0 ;;
  let func_sig :=
    match entries with
    | [] => EmptyString
    | e :: _ => occ_func_sig e
    end in
  let score := score + per_arg * args_count func_sig in
  let score := if has_return func_sig then score + has_ret_w else score in
  if wrap_coexist then
    bonus <- int_at weights "wrap_coexist_bonus" 0 ;; Ok (score + bonus)
  else Ok score.

(** The [if/elif] chain that chooses [sev]; a threshold is read only when
    the branches before it were not taken. *)
Definition severity_of_score (thresholds : pyval) (score : Z) : result string :=
  critical <- int_at thresholds "critical" 80 ;;
  if score >=? critical then Ok "Critical"
  else
    high <- int_at thresholds "high" 60 ;;
    if score >=? high then Ok "High"
    else
      medium <- int_at thresholds "medium" 40 ;;
      if score >=? medium then Ok "Medium" else Ok "Low".

Record impact : Type := mkImpact { severity : string; message : string }.

Definition empty_impact : impact := {| severity := ""; message := "" |}.

(** The body of the [try] block once [cfg] is known. *)
Definition impact_body (cfg : pyval) (cls meth : string) (mods : list string)
    (entries : list Occurrence) (wrap_coexist : bool) : result impact :=
  weights <- dict_at cfg "weights" ;;
  thresholds <- dict_at cfg "thresholds" ;;
  score <- impact_score weights cls meth mods entries wrap_coexist ;;
  sev <- severity_of_score thresholds score ;;
  let code := classify_conflict_symptom cls meth in
  let base_key := "impact.symptom." ++ code in
  let wrap_note := if wrap_coexist then " impact.extra.wrapCoexist" else "" in
  Ok {| severity := sev; message := base_key ++ wrap_note |}.

(** [cfg = config or get_default_impact_config()] *)
Definition effective_config
    (candidates : list (option pyval)) (cache : option pyval) (config : option pyval)
  : pyval * option pyval :=
  match config with
  | Some c => if truthy c then (c, cache) else get_default_impact_config candidates cache
  | None => get_default_impact_config candidates cache
  end.

(** [compute_impact_unified(cls, meth, mods, entries, config=..., wrap_coexist=...)]
    called when the candidate profile files hold [candidates] and the
    module cache holds [cache]; returns the dict and the cache afterwards. *)
Definition compute_impact_unified
    (candidates : list (option pyval)) (cache : option pyval)
    (cls meth : string) (mods : list string) (entries : list Occurrence)
    (config : option pyval) (wrap_coexist : bool) : impact * option pyval :=
  let '(cfg, cache') := effective_config candidates cache config in
  (match impact_body cfg cls meth mods entries wrap_coexist with
   | Ok r => r
   | Raise _ => empty_impact
   end, cache').

End Impact.

(** ** redscript_conflicts_report.py: [scan_file] *)

Module Scanner.
Import PyStr.

Definition strip_prefix (p s : string) : option string :=
  if prefix p s then Some (drop (String.length p) s) else None.

(** The alternation [(replaceMethod|wrapMethod|replaceGlobal)]. *)
Definition annotation_name (s : string) : option (annotation * string) :=
  match strip_prefix "replaceMethod" s with
  | Some r => Some (replaceMethod, r)
  | None =>
      match strip_prefix "wrapMethod" s with
      | Some r => Some (wrapMethod, r)
      | None =>
          match strip_prefix "replaceGlobal" s with
          | Some r => Some (replaceGlobal, r)
          | None => None
          end
      end
  end.

(** The argument group: every character up to the first closing
    parenthesis, and what follows that parenthesis. *)
Fixpoint until_rparen (s : string) : option (string * string) :=
  match s with
  | EmptyString => None
  | String c r =>
      if Ascii.eqb c ")"%char then Some (EmptyString, r)
      else match until_rparen r with
           | Some (g, rest) => Some (String c g, rest)
           | None => None
           end
  end.

(** [ANNOTATION_RE.match(line)]: groups 1 and 2 of a match. *)
Definition ANNOTATION_RE (line : string) : option (annotation * string) :=
  match lstrip line with
  | String "@"%char r =>
      match annotation_name r with
      | Some (ann, r1) =>
          match lstrip r1 with
          | String "("%char r2 =>
              match until_rparen r2 with
              | Some (g, rest) =>
                  if (lstrip rest =? "")%string then Some (ann, g) else None
              | None => None
              end
          | _ => None
          end
      | None => None
      end
  | _ => None
  end.

(** [s.endswith(suf)] *)
Fixpoint endswith (s suf : string) : bool :=
  (s =? suf)%string
  || match s with
     | EmptyString => false
     | String _ r => endswith r suf
     end.

(** [COMMENT_RE.search(line)]: the line starts, after white space, with
    two slashes or with slash-star, or ends, before white space, with
    star-slash. *)
Definition COMMENT_RE (line : string) : bool :=
  prefix "//" (lstrip line) || prefix "/*" (lstrip line) || endswith (rstrip line) "*/".

(** The longest prefix of [s] in the class [p], and the rest. *)
Fixpoint span (p : ascii -> bool) (s : string) : string * string :=
  match s with
  | EmptyString => (EmptyString, EmptyString)
  | String c r =>
      if p c then let '(a, b) := span p r in (String c a, b)
      else (EmptyString, s)
  end.

(** A match of [func\s+([A-Za-z0-9_]+)\s*\(] at the start of [s]. *)
Definition func_at (s : string) : option string :=
  match strip_prefix "func" s with
  | Some r =>
      let '(ws, r1) := span isspace r in
      if (ws =? "")%string then None
      else
        let '(name, r2) := span is_word r1 in
        if (name =? "")%string then None
        else match lstrip r2 with
             | String "("%char _ => Some name
             | _ => None
             end
  | None => None
  end.

(** The leftmost match from [s] on; [prev_word] tells whether the
    character before [s] is a word character (no word boundary then). *)
Fixpoint FUNC_RE_from (prev_word : bool) (s : string) : option string :=
  match (if prev_word then None else func_at s) with
  | Some name => Some name
  | None =>
      match s with
      | EmptyString => None
      | String c r => FUNC_RE_from (is_word c) r
      end
  end.

(** [FUNC_RE.search(line)]: group 1 of the leftmost match. *)
Definition FUNC_RE (line : string) : option string := FUNC_RE_from false line.

(** The class list of an annotation line. *)
Definition classes_of (ann : annotation) (group2 : string) : list string :=
  let classes :=
    if (group2 =? "")%string then [] else map strip (split_char ","%char group2) in
  let classes :=
    match ann with
    | replaceGlobal => ["<global>"]
    | _ => classes
    end in
  match classes with
  | [] => ["<unknown>"]
  | _ => classes
  end.

Definition pending_item : Type := (annotation * list string * nat)%type.

Record scan_state : Type := mkScan {
  entries : list Occurrence;
  pending : list pending_item
}.

(** The entries one pending annotation contributes at a flush. *)
Definition emit (path method func_sig : string) (p : pending_item) : list Occurrence :=
  let '(ann, classes, ann_line) := p in
  map (fun cls => mkOccurrence ann cls method func_sig path ann_line None None) classes.

(** One iteration of the loop over the lines. *)
Definition scan_line (path : string) (st : scan_state) (idx : nat) (line : string)
  : scan_state :=
  match ANNOTATION_RE line with
  | Some (ann, group2) =>
      mkScan (entries st) (pending st ++ [(ann, classes_of ann group2, idx)])
  | None =>
      if (strip line =? "")%string || COMMENT_RE line then st
      else if contains " func " (String " "%char line) then
        match FUNC_RE line, pending st with
        | Some method, _ :: _ =>
            mkScan (entries st ++ flat_map (emit path method (strip line)) (pending st)) []
        | _, _ => mkScan (entries st) []
        end
      else
        match pending st with
        | _ :: _ =>
            if startswith (lstrip line) "@" then st else mkScan (entries st) []
        | [] => st
        end
  end.

Fixpoint scan_lines (path : string) (st : scan_state) (idx : nat) (lines : list string)
  : scan_state :=
  match lines with
  | [] => st
  | line :: rest => scan_lines path (scan_line path st idx line) (S idx) rest
  end.

(** [scan_file(path)]; [content] is what [path.read_text] returns, [None]
    when it raises. *)
Definition scan_file (path : string) (content : option string) : list Occurrence :=
  match content with
  | None => []
  | Some text => entries (scan_lines path (mkScan [] []) 1 (splitlines text))
  end.

End Scanner.

(** ** Dictionaries in insertion order *)

Section DefaultDict.
Context {K V : Type} (keq : K -> K -> bool) (dflt : V).

(** [d[k] = f(d[k])] on a [defaultdict] whose factory returns [dflt]. *)
Fixpoint dd_update (k : K) (f : V -> V) (d : list (K * V)) : list (K * V) :=
  match d with
  | [] => [(k, f dflt)]
  | (k', v) :: r =>
      if keq k' k then (k', f v) :: r else (k', v) :: dd_update k f r
  end.

Fixpoint dd_lookup (k : K) (d : list (K * V)) : option V :=
  match d with
  | [] => None
  | (k', v) :: r => if keq k' k then Some v else dd_lookup k r
  end.

Definition dd_value (k : K) (d : list (K * V)) : V :=
  match dd_lookup k d with
  | Some v => v
  | None => dflt
  end.
End DefaultDict.

(** ** Sorting strings *)

Fixpoint insert_sorted (x : string) (l : list string) : list string :=
  match l with
  | [] => [x]
  | y :: r => if String.ltb y x then y :: insert_sorted x r else x :: l
  end.

(** [sorted(l)] on strings, which Python orders by code points. *)
Definition py_sorted (l : list string) : list string := fold_right insert_sorted [] l.

(** [sorted({f(x) for x in l})]: the order in which a set is iterated does
    not show in the result. *)
Definition sorted_set {A : Type} (f : A -> string) (l : list A) : list string :=
  py_sorted (nodup string_dec (map f l)).

(** [len({f(x) for x in l})] *)
Definition distinct_count {A : Type} (f : A -> string) (l : list A) : nat :=
  List.length (nodup string_dec (map f l)).

(** ** redscript_conflicts_report.py: [build_report] *)

Module Report.
Import PyStr.

(** *** Paths ([pathlib] on a POSIX system) *)

Definition is_segment (s : string) : bool :=
  negb (s =? "")%string && negb (s =? ".")%string.

(** [Path(p).parts] *)
Definition path_parts (p : string) : list string :=
  let segs := filter is_segment (split_char "/"%char p) in
  if prefix "/" p then
    (if prefix "//" p && negb (prefix "///" p) then "//" else "/") :: segs
  else segs.

(** [p.relative_to(root)] on parts; [None] when it raises [ValueError]. *)
Fixpoint relative_to (p root : list string) : option (list string) :=
  match root, p with
  | [], _ => Some p
  | r :: root', x :: p' => if (x =? r)%string then relative_to p' root' else None
  | _ :: _, [] => None
  end.

(** [str(rel)] for a relative path given by its parts. *)
Definition path_str (parts : list string) : string :=
  match parts with
  | [] => "."
  | _ => String.concat "/" parts
  end.

(** [p.name] *)
Definition path_name (p : string) : string :=
  match rev (path_parts p) with
  | [] => EmptyString
  | last :: before =>
      match before with
      | [] => if prefix "/" p then EmptyString else last
      | _ => last
      end
  end.

(** [l.index(x)] when [x in l]. *)
Fixpoint index_of (x : string) (l : list string) : option nat :=
  match l with
  | [] => None
  | y :: r => if (y =? x)%string then Some 0 else option_map S (index_of x r)
  end.

(** The choice of [mod] from the parts of the relative path. *)
Definition mod_of_parts (parts : list string) : string :=
  let parts_lower := map lower parts in
  match index_of "r6" parts_lower with
  | Some i =>
      if (i + 1 <? List.length parts_lower)
         && (nth (i + 1) parts_lower EmptyString =? "scripts")%string
         && (i + 2 <? List.length parts)
      then nth (i + 2) parts EmptyString
      else if i + 1 <? List.length parts then nth (i + 1) parts EmptyString
      else "<root>"
  | None =>
      match index_of "scripts" parts_lower with
      | Some j =>
          if j + 1 <? List.length parts then nth (j + 1) parts EmptyString
          else match parts with
               | p0 :: _ => p0
               | [] => "<root>"
               end
      | None =>
          match parts with
          | p0 :: _ => p0
          | [] => "<root>"
          end
      end
  end.

(** *** Groups *)

Record ConflictGroup : Type := mkConflict {
  cg_class : string;
  cg_method : string;
  cg_count : nat;
  cg_mods : list string;
  cg_occurrences : list Occurrence
}.

Record WrapCoexistenceGroup : Type := mkWrapCoexistence {
  wc_class : string;
  wc_method : string;
  wc_wrap_count : nat;
  wc_mods : list string;
  wc_occurrences : list Occurrence
}.

Record ReplaceWrapCoexistenceGroup : Type := mkReplaceWrap {
  rw_class : string;
  rw_method : string;
  rw_replace_count : nat;
  rw_wrap_count : nat;
  rw_mods_replace : list string;
  rw_mods_wrap : list string;
  rw_occurrences_replace : list Occurrence;
  rw_occurrences_wrap : list Occurrence
}.

Record report : Type := mkReport {
  scanned_root : string;
  files_scanned : nat;
  entries : list Occurrence;
  annotation_counts : list (annotation * nat);
  conflicts : list ConflictGroup;
  wrap_coexistence : list WrapCoexistenceGroup;
  replace_wrap_coexistence : list ReplaceWrapCoexistenceGroup
}.

(** The value [{'replace': [], 'wrap': [], 'other': []}] of [by_cm]. *)
Record kinds : Type := mkKinds {
  k_replace : list Occurrence;
  k_wrap : list Occurrence;
  k_other : list Occurrence
}.

Definition no_kinds : kinds := mkKinds [] [] [].

Definition key3 : Type := (annotation * string * string)%type.
Definition key2 : Type := (string * string)%type.

Definition key3_eqb (a b : key3) : bool :=
  let '(a1, a2, a3) := a in
  let '(b1, b2, b3) := b in
  annotation_eqb a1 b1 && (a2 =? b2)%string && (a3 =? b3)%string.

Definition key2_eqb (a b : key2) : bool :=
  (fst a =? fst b)%string && (snd a =? snd b)%string.

Definition key_of (e : Occurrence) : key3 :=
  (occ_annotation e, occ_class e, occ_method e).

(** [by_key[key].append(e)] for every entry. *)
Definition group_by_key (es : list Occurrence) : list (key3 * list Occurrence) :=
  fold_left (fun d e => dd_update key3_eqb [] (key_of e) (fun l => (l ++ [e])%list) d) es [].

(** [by_cm[(cls, meth)][kind].extend(lst)] *)
Definition extend_kind (ann : annotation) (lst : list Occurrence) (k : kinds) : kinds :=
  match ann with
  | replaceMethod => mkKinds (k_replace k ++ lst) (k_wrap k) (k_other k)
  | wrapMethod => mkKinds (k_replace k) (k_wrap k ++ lst) (k_other k)
  | replaceGlobal => mkKinds (k_replace k) (k_wrap k) (k_other k ++ lst)
  end.

Definition add_bucket (d : list (key2 * kinds)) (item : key3 * list Occurrence)
  : list (key2 * kinds) :=
  let '((ann, cls, meth), lst) := item in
  dd_update key2_eqb no_kinds (cls, meth) (extend_kind ann lst) d.

Definition group_by_cm (by_key : list (key3 * list Occurrence)) : list (key2 * kinds) :=
  fold_left add_bucket by_key [].

(** [x.get('mod', '<unknown>')] *)
Definition mod_or_unknown (x : Occurrence) : string :=
  match occ_mod x with
  | Some m => m
  | None => "<unknown>"
  end.

Definition nonempty {A : Type} (l : list A) : bool :=
  match l with
  | [] => false
  | _ :: _ => true
  end.

(** The three [if] statements of the loop over [by_cm.items()]. *)
Definition conflict_of (item : key2 * kinds) : list ConflictGroup :=
  let '((cls, meth), k) := item in
  let repl := k_replace k in
  if nonempty repl && (1 <? distinct_count occ_file repl)
  then [mkConflict cls meth (List.length repl) (sorted_set mod_or_unknown repl) repl]
  else [].

Definition wrap_coexistence_of (item : key2 * kinds) : list WrapCoexistenceGroup :=
  let '((cls, meth), k) := item in
  let wrap := k_wrap k in
  if nonempty wrap && (1 <? distinct_count occ_file wrap)
  then [mkWrapCoexistence cls meth (List.length wrap)
          (sorted_set mod_or_unknown wrap) wrap]
  else [].

Definition replace_wrap_of (item : key2 * kinds) : list ReplaceWrapCoexistenceGroup :=
  let '((cls, meth), k) := item in
  let repl := k_replace k in
  let wrap := k_wrap k in
  if nonempty repl && nonempty wrap
  then [mkReplaceWrap cls meth (List.length repl) (List.length wrap)
          (sorted_set mod_or_unknown repl) (sorted_set mod_or_unknown wrap)
          repl wrap]
  else [].

(** [Counter(e['annotation'] for e in entries)] *)
Definition count_annotations (es : list Occurrence) : list (annotation * nat) :=
  fold_left (fun d e => dd_update annotation_eqb 0 (occ_annotation e) S d) es [].

Section WithFileSystem.
(** [Path.resolve] as a function on path strings: it depends on the
    symbolic links and on the working directory of the run. *)
Variable resolve : string -> string.

(** The enrichment of one entry; [root] is already resolved. *)
Definition enrich (root : string) (e : Occurrence) : Occurrence :=
  let p := occ_file e in
  let '(rel_parts, rel_str) :=
    match relative_to (path_parts (resolve p)) (path_parts root) with
    | Some parts => (parts, path_str parts)
    | None => ([path_name p], path_name p)
    end in
  mkOccurrence (occ_annotation e) (occ_class e) (occ_method e) (occ_func_sig e)
    (occ_file e) (occ_line e) (Some rel_str) (Some (mod_of_parts rel_parts)).

(** [build_report(root)]; [reds_files] is what [root.rglob('*.reds')]
    lists, each path with what [read_text] returns for it. *)
Definition build_report (root : string) (reds_files : list (string * option string))
  : report :=
  let scanned :=
    flat_map (fun f => Scanner.scan_file (fst f) (snd f)) reds_files in
  let root := resolve root in
  let entries := map (enrich root) scanned in
  let by_cm := group_by_cm (group_by_key entries) in
  mkReport (resolve root) (List.length reds_files) entries
    (count_annotations entries)
    (flat_map conflict_of by_cm)
    (flat_map wrap_coexistence_of by_cm)
    (flat_map replace_wrap_of by_cm).
End WithFileSystem.

End Report.

(** ** common/common_util.py *)

Module Util.
Import PyStr.

(** [method_has_wrap(report, cls, method)]: the two loops with their early
    [return True]. *)
Definition method_has_wrap (r : Report.report) (cls method : string) : bool :=
  existsb (fun item => (Report.wc_class item =? cls)%string
                       && (Report.wc_method item =? method)%string)
    (Report.wrap_coexistence r)
  || existsb (fun item => (Report.rw_class item =? cls)%string
                          && (Report.rw_method item =? method)%string)
       (Report.replace_wrap_coexistence r).

(** [ch.isalnum()] on one ASCII character. *)
Definition isalnum (c : ascii) : bool := is_alpha c || is_digit c.

(** [s.replace(a, b)] for one-character strings [a] and [b]. *)
Fixpoint replace_char (a b : ascii) (s : string) : string :=
  match s with
  | EmptyString => EmptyString
  | String c r => String (if Ascii.eqb c a then b else c) (replace_char a b r)
  end.

(** [''.join(ch for ch in s if p(ch))] *)
Fixpoint filter_chars (p : ascii -> bool) (s : string) : string :=
  match s with
  | EmptyString => EmptyString
  | String c r => if p c then String c (filter_chars p r) else filter_chars p r
  end.

(** [str(i)] for an integer. *)
Definition str_of_int (i : Z) : string := NilZero.string_of_int (Z.to_int i).

Definition anchor_char (ch : ascii) : bool :=
  isalnum ch || Ascii.eqb ch "-"%char || Ascii.eqb ch "_"%char || Ascii.eqb ch "."%char.

(** [make_conflict_anchor(idx, cls, meth)] *)
Definition make_conflict_anchor (idx : option Z) (cls meth : string) : string :=
  let base := replace_char " "%char "-"%char (lower (cls ++ "-" ++ meth)) in
  let base := filter_chars anchor_char base in
  match idx with
  | Some i => "conf-" ++ str_of_int i ++ "-" ++ base
  | None => "conf-" ++ base
  end.

End Util.

(** ** builders/report_sections.py and [iter_conflicts] *)

Module Sections.

(** [a < b] on the tuples [(class, method)]. *)
Definition key_lt (a b : string * string) : bool :=
  String.ltb (fst a) (fst b)
  || ((fst a =? fst b)%string && String.ltb (snd a) (snd b)).

Section SortedBy.
Context {A : Type} (key : A -> string * string).

Fixpoint insert_by (x : A) (l : list A) : list A :=
  match l with
  | [] => [x]
  | y :: r => if key_lt (key y) (key x) then y :: insert_by x r else x :: l
  end.

(** [sorted(l, key=key)]: elements with equal keys keep their order. *)
Definition sorted_by (l : list A) : list A := fold_right insert_by [] l.
End SortedBy.

Definition wrap_key (g : Report.WrapCoexistenceGroup) : string * string :=
  (Report.wc_class g, Report.wc_method g).

Definition replace_wrap_key (g : Report.ReplaceWrapCoexistenceGroup) : string * string :=
  (Report.rw_class g, Report.rw_method g).

Definition conflict_key (g : Report.ConflictGroup) : string * string :=
  (Report.cg_class g, Report.cg_method g).

Record wrap_index : Type := mkIndex {
  idx_wrap : list Report.WrapCoexistenceGroup;
  idx_replace_wrap : list Report.ReplaceWrapCoexistenceGroup;
  idx_has_any : bool
}.

(** [build_wrap_coexistence_index(report)] *)
Definition build_wrap_coexistence_index (r : Report.report) : wrap_index :=
  let wrap := sorted_by wrap_key (Report.wrap_coexistence r) in
  let rep_wrap := sorted_by replace_wrap_key (Report.replace_wrap_coexistence r) in
  mkIndex wrap rep_wrap (Report.nonempty wrap || Report.nonempty rep_wrap).

(** [list(iter_wrap_groups(report, kind))] *)
Definition iter_wrap_groups (r : Report.report) (kind : string)
  : list (Report.WrapCoexistenceGroup + Report.ReplaceWrapCoexistenceGroup) :=
  let idx := build_wrap_coexistence_index r in
  if (kind =? "wrap")%string then map inl (idx_wrap idx)
  else if (kind =? "replace_wrap")%string then map inr (idx_replace_wrap idx)
  else [].

(** [iter_conflicts(report, sort=sort)] of [builders/report_builders.py] *)
Definition iter_conflicts (r : Report.report) (sort : bool) : list Report.ConflictGroup :=
  if sort then sorted_by conflict_key (Report.conflicts r) else Report.conflicts r.

End Sections.

(** * Vocabulary of the properties *)

Import Impact.
Import Report.

Local Open Scope Z_scope.

(** Position of a severity label in the order Low < Medium < High <
    Critical; the empty label of the fallback result has none. *)
Definition tier_rank (sev : string) : option nat :=
  if (sev =? "Low")%string then Some 0%nat
  else if (sev =? "Medium")%string then Some 1%nat
  else if (sev =? "High")%string then Some 2%nat
  else if (sev =? "Critical")%string then Some 3%nat
  else None.

(** [int(weights.get('wrap_coexist_bonus', 0))] as the scorer reads it
    from a config. *)
Definition wrap_coexist_bonus (cfg : pyval) : result Z :=
  weights <- dict_at cfg "weights" ;; int_at weights "wrap_coexist_bonus" 0.

(** The thresholds of the default profile. *)
Definition default_thresholds : pyval :=
  PDict [ ("critical", PInt 95); ("high", PInt 70); ("medium", PInt 45) ].

(** The tiers as the specification words them for the default
    thresholds: each threshold is an inclusive lower bound. *)
Definition spec_tier (score : Z) : string :=
  if 95 <=? score then "Critical"
  else if 70 <=? score then "High"
  else if 45 <=? score then "Medium"
  else "Low".

Definition sample_entry : Occurrence :=
  mkOccurrence replaceMethod "PlayerStatusUIController" "UpdatePlayer"
    "public func UpdatePlayer(input: Int32, ctx: Game) -> Bool"
    "/mods/ModA/player.reds" 1 (Some "ModA/player.reds") (Some "ModA").

Definition default_weights : pyval :=
  match dict_at _IMPACT_DEFAULT_CONFIG "weights" with
  | Ok w => w
  | Raise _ => PNone
  end.

Definition int_valued (kv : string * pyval) : Prop := exists z, snd kv = PInt z.

Definition sig_entry (func_sig : string) : Occurrence :=
  mkOccurrence replaceMethod "C" "M" func_sig "/mods/A/x.reds" 1
    (Some "A/x.reds") (Some "A").

(** The score and the label the scorer gives under the embedded default
    profile, passed as [config]. *)
Definition scored (cls meth : string) (mods : list string) (entries : list Occurrence)
    (wrap : bool) : result Z * string :=
  (impact_score default_weights cls meth mods entries wrap,
   severity (fst (compute_impact_unified [] None cls meth mods entries
                    (Some _IMPACT_DEFAULT_CONFIG) wrap))).

(** A profile file that appears between two calls. *)
Definition late_profile : pyval :=
  PDict [ ("thresholds", PDict [ ("critical", PInt 0) ]); ("weights", PDict []) ].

(** Two calls in a row, the candidate files holding [before] at the first
    and [after] at the second; the module cache starts at [cache]. *)
Definition call_twice (before after : list (option pyval)) (cache : option pyval)
    (cls meth : string) (mods : list string) (entries : list Occurrence)
    (config : option pyval) (wrap : bool) : impact * impact :=
  let '(r1, cache1) :=
    compute_impact_unified before cache cls meth mods entries config wrap in
  let '(r2, _) :=
    compute_impact_unified after cache1 cls meth mods entries config wrap in
  (r1, r2).

Definition well_formed (r : impact) : Prop :=
  (exists i, tier_rank (severity r) = Some i)
  /\ prefix "impact.symptom." (message r) = true.

Local Close Scope Z_scope.

Definition str_lt (a b : string) : Prop := String.ltb a b = true.

(** A list of mod ids as the report keeps it: ascending, so without
    duplicates, and holding the mod ids of the given occurrences. *)
Definition mods_of (mods : list string) (occs : list Occurrence) : Prop :=
  StronglySorted str_lt mods
  /\ NoDup mods
  /\ forall m, In m mods <-> exists x, Report.mod_or_unknown x = m /\ In x occs.

(** The occurrences of one annotation kind on one class and method, in the
    order of [entries]. *)
Definition occurrences_of (a : annotation) (c m : string) (es : list Occurrence)
  : list Occurrence :=
  filter (fun e => key3_eqb (key_of e) (a, c, m)) es.

Definition kind_sel (a : annotation) (k : kinds) : list Occurrence :=
  match a with
  | replaceMethod => k_replace k
  | wrapMethod => k_wrap k
  | replaceGlobal => k_other k
  end.

Definition conflicts_for (c m : string) (r : report) : list ConflictGroup :=
  filter (fun g => key2_eqb (cg_class g, cg_method g) (c, m)) (conflicts r).

Definition replace_wrap_for (c m : string) (r : report)
  : list ReplaceWrapCoexistenceGroup :=
  filter (fun g => key2_eqb (rw_class g, rw_method g) (c, m))
    (replace_wrap_coexistence r).

Definition bar_replace : string :=
  "@replaceMethod(Foo)
func Bar(a: Int32) -> Int32 {
}".

Definition bar_replace_twice : string :=
  "@replaceMethod(Foo)
func Bar(a: Int32) -> Int32 {
}
@replaceMethod(Foo)
func Bar(a: Int32) -> Int32 {
}".

Definition bar_replace_wrap : string :=
  "@replaceMethod(Foo)
func Bar(a: Int32) -> Int32 {
}
@wrapMethod(Foo)
func Bar(a: Int32) -> Int32 {
}".

Definition same_path (p : string) : string := p.

Definition two_mods : list (string * option string) :=
  [("/proj/r6/scripts/ModB/bar.reds", Some bar_replace);
   ("/proj/r6/scripts/ModA/bar.reds", Some bar_replace_twice)].

Definition first_conflict (r : report) : ConflictGroup :=
  hd (mkConflict "" "" 0 [] []) (conflicts r).

Definition somemod_file : string := "/proj/SomeMod/r6/scripts/sub/File.reds".

(** The number of (annotation, class) pairs in a pending buffer. *)
Definition class_pairs (pend : list Scanner.pending_item) : nat :=
  list_sum (map (fun p => List.length (snd (fst p))) pend).

(** Annotation, class, method and annotation line of an entry. *)
Definition summary (e : Occurrence) : annotation * string * string * nat :=
  (occ_annotation e, occ_class e, occ_method e, occ_line e).


(** A function declaration line as the scanner recognises it, with the
    method name it reads. *)
Definition func_line (line method : string) : Prop :=
  Scanner.ANNOTATION_RE line = None
  /\ (PyStr.strip line =? "")%string || Scanner.COMMENT_RE line = false
  /\ PyStr.contains " func " (String " "%char line) = true
  /\ Scanner.FUNC_RE line = Some method.

(** A statement that is neither annotation, blank, comment, function
    declaration nor attribute line. *)
Definition unrelated_line (line : string) : Prop :=
  Scanner.ANNOTATION_RE line = None
  /\ (PyStr.strip line =? "")%string || Scanner.COMMENT_RE line = false
  /\ PyStr.contains " func " (String " "%char line) = false
  /\ PyStr.startswith (PyStr.lstrip line) "@" = false.

(** The line with the given 1-based number. *)
Definition line_no (lines : list string) (n : nat) : option string :=
  match n with
  | O => None
  | S k => nth_error lines k
  end.

(** What the scanner guarantees about an entry [e] of a file with the
    given lines: it points to an annotation line of its kind that lists
    its class, and a later line declares its method. *)
Definition entry_justified (path : string) (lines : list string) (e : Occurrence)
  : Prop :=
  occ_file e = path
  /\ occ_relpath e = None /\ occ_mod e = None
  /\ exists ann_text group2 func_no func_text,
       line_no lines (occ_line e) = Some ann_text
       /\ Scanner.ANNOTATION_RE ann_text = Some (occ_annotation e, group2)
       /\ In (occ_class e) (Scanner.classes_of (occ_annotation e) group2)
       /\ occ_line e < func_no
       /\ line_no lines func_no = Some func_text
       /\ Scanner.FUNC_RE func_text = Some (occ_method e)
       /\ occ_func_sig e = PyStr.strip func_text.

(** The same for an item of the pending buffer when line [idx] is read. *)
Definition pending_justified (lines : list string) (idx : nat)
    (p : Scanner.pending_item) : Prop :=
  snd p < idx
  /\ exists ann_text group2,
       line_no lines (snd p) = Some ann_text
       /\ Scanner.ANNOTATION_RE ann_text = Some (fst (fst p), group2)
       /\ snd (fst p) = Scanner.classes_of (fst (fst p)) group2.

Definition scan_invariant (path : string) (lines : list string) (idx : nat)
    (st : Scanner.scan_state) : Prop :=
  Forall (pending_justified lines idx) (Scanner.pending st)
  /\ Forall (entry_justified path lines) (Scanner.entries st).

(** No white space at either end. *)
Definition trimmed (s : string) : Prop := PyStr.lstrip s = s /\ PyStr.rstrip s = s.

Definition wrap_coexistence_for (c m : string) (r : report)
  : list WrapCoexistenceGroup :=
  filter (fun g => key2_eqb (wc_class g, wc_method g) (c, m)) (wrap_coexistence r).

(** The number of entries with a given annotation. *)
Definition count_of (a : annotation) (es : list Occurrence) : nat :=
  List.length (filter (fun e => annotation_eqb (occ_annotation e) a) es).


(** The symptom codes. *)
Definition symptom_codes : list string :=
  ["uiHud"; "player"; "vehicle"; "quest"; "inventory"; "damage"; "other"].

(** The tiers cut at the fallback thresholds 80, 60 and 40. *)
Definition fallback_tier (score : Z) : string :=
  if (80 <=? score)%Z then "Critical"
  else if (60 <=? score)%Z then "High"
  else if (40 <=? score)%Z then "Medium"
  else "Low".

(** The sum of the integer weights of the keywords found in [text]. *)
Fixpoint keyword_sum (items : list (string * pyval)) (text : string) : Z :=
  match items with
  | [] => 0%Z
  | (kw, w) :: rest =>
      ((if PyStr.contains kw text then
          match w with
          | PInt z => z
          | _ => 0
          end
        else 0) + keyword_sum rest text)%Z
  end.

(** The signature the scorer looks at. *)
Definition first_sig (entries : list Occurrence) : string :=
  match entries with
  | [] => EmptyString
  | e :: _ => occ_func_sig e
  end.

(** A candidate file that gives no profile. *)
Definition no_profile (candidate : option pyval) : Prop :=
  match candidate with
  | Some data => is_profile data = false
  | None => True
  end.

(** The characters of an anchor: lower case letters, digits, dash,
    underscore and dot. *)
Definition safe_char (c : ascii) : bool :=
  let n := nat_of_ascii c in
  ((97 <=? n) && (n <=? 122)) || PyStr.is_digit c
  || Ascii.eqb c "-"%char || Ascii.eqb c "_"%char || Ascii.eqb c "."%char.

Fixpoint all_chars (p : ascii -> bool) (s : string) : bool :=
  match s with
  | EmptyString => true
  | String c r => p c && all_chars p r
  end.

Definition is_upper (c : ascii) : bool :=
  let n := nat_of_ascii c in (65 <=? n) && (n <=? 90).

(** Neighbours in key order: the second key is not below the first. *)
Definition key_ordered {A : Type} (key : A -> string * string) (x y : A) : Prop :=
  Sections.key_lt (key y) (key x) = false.

(** The keys of a sequence in the order in which they are first seen. *)
Definition see_key {K : Type} (keq : K -> K -> bool) (ks : list K) (k : K) : list K :=
  if existsb (fun k' => keq k' k) ks then ks else (ks ++ [k])%list.

Definition first_seen {K : Type} (keq : K -> K -> bool) (l : list K) : list K :=
  fold_left (see_key keq) l [].

(** Class and method of an entry. *)
Definition class_method (e : Occurrence) : key2 := (occ_class e, occ_method e).

(** The number of files in which a class and method has occurrences of
    one annotation kind. *)
Definition files_of (a : annotation) (es : list Occurrence) (k : key2) : nat :=
  distinct_count occ_file (occurrences_of a (fst k) (snd k) es).

(** The name of an annotation as it is written after the [@]. *)
Definition annotation_text (a : annotation) : string :=
  match a with
  | replaceMethod => "replaceMethod"
  | wrapMethod => "wrapMethod"
  | replaceGlobal => "replaceGlobal"
  end.

(** White space only. *)
Definition blank (s : string) : Prop := all_chars PyStr.isspace s = true.

(** No closing parenthesis. *)
Definition no_rparen (s : string) : Prop :=
  all_chars (fun c => negb (Ascii.eqb c ")"%char)) s = true.

(** The value of [weights.get('wrap_coexist_bonus', 0)] in a config,
    before [int] is applied to it. *)
Definition bonus_weight (cfg : pyval) : result pyval :=
  weights <- dict_at cfg "weights" ;; py_get weights "wrap_coexist_bonus" (PInt 0).

(** A weight that is a non-negative number. *)
Definition nonneg_weight (v : pyval) : Prop :=
  match v with
  | PInt z => (0 <= z)%Z
  | PBool _ => True
  | PFloat (FFinite m _) => (0 <= m)%Z
  | PFloat (FInf negative) => negative = false
  | _ => False
  end.

(** The position of a label as the repository's baseline test takes it:
    that of its tier, and 0 for any other text. *)
Definition tier_index (sev : string) : nat :=
  match tier_rank sev with
  | Some i => i
  | None => 0
  end.

(** A profile whose wrap bonus is the float infinity, as [json.loads]
    reads [Infinity] or [1e999]. *)
Definition infinite_bonus_config : pyval :=
  PDict [ ("thresholds", default_thresholds);
          ("weights", PDict [ ("per_mod", PInt 50);
                              ("wrap_coexist_bonus", PFloat (FInf false)) ]) ].

(** * Properties *)

(** ** Impact scorer *)

Local Open Scope Z_scope.

Ltac step_bind :=
  match goal with
  | |- context [bind ?m _] =>
      lazymatch m with
      | bind _ _ => fail
      | Ok _ => fail
      | Raise _ => fail
      | _ => destruct m; simpl; try reflexivity
      end
  end.

Lemma impact_score_wrap weights cls meth mods entries :
  impact_score weights cls meth mods entries true =
  (s <- impact_score weights cls meth mods entries false ;;
   b <- int_at weights "wrap_coexist_bonus" 0 ;; Ok (s + b)).
Proof.
  unfold impact_score. repeat step_bind.
Qed.

Lemma severity_of_score_rank thresholds s sev :
  severity_of_score thresholds s = Ok sev -> exists i, tier_rank sev = Some i.
Proof.
  unfold severity_of_score. intros H.
  destruct (int_at thresholds "critical" 80) as [c|]; cbn [bind] in H; [|discriminate].
  destruct (s >=? c); [injection H as <-; now exists 3%nat|].
  destruct (int_at thresholds "high" 60) as [h|]; cbn [bind] in H; [|discriminate].
  destruct (s >=? h); [injection H as <-; now exists 2%nat|].
  destruct (int_at thresholds "medium" 40) as [m|]; cbn [bind] in H; [|discriminate].
  destruct (s >=? m); injection H as <-; [now exists 1%nat | now exists 0%nat].
Qed.

Ltac tier_done :=
  eexists; eexists; split; [reflexivity | split; [reflexivity | lia]].

(** A larger score never gets a lower tier, and reads no threshold that
    the smaller score did not read. *)
Lemma severity_of_score_mono thresholds s s' sev i :
  s <= s' ->
  severity_of_score thresholds s = Ok sev ->
  tier_rank sev = Some i ->
  exists sev' j,
    severity_of_score thresholds s' = Ok sev'
    /\ tier_rank sev' = Some j /\ (i <= j)%nat.
Proof.
  unfold severity_of_score. intros Hle H Hr.
  destruct (int_at thresholds "critical" 80) as [c|]; simpl in *; [|discriminate].
  destruct (Z.geb_spec s c).
  { inversion H; subst; inversion Hr; subst.
    destruct (Z.geb_spec s' c); [tier_done | lia]. }
  destruct (int_at thresholds "high" 60) as [h|]; simpl in *; [|discriminate].
  destruct (Z.geb_spec s h).
  { inversion H; subst; inversion Hr; subst.
    destruct (Z.geb_spec s' c); [tier_done|].
    destruct (Z.geb_spec s' h); [tier_done | lia]. }
  destruct (int_at thresholds "medium" 40) as [m|]; simpl in *; [|discriminate].
  destruct (Z.geb_spec s m); inversion H; subst; inversion Hr; subst;
    destruct (Z.geb_spec s' c); try tier_done;
    destruct (Z.geb_spec s' h); try tier_done;
    destruct (Z.geb_spec s' m); try tier_done; lia.
Qed.

Lemma tier_rank_empty : tier_rank "" = None.
Proof. reflexivity. Qed.

(** C2, amended. Baseline never above overall: when [int] converts the
    [wrap_coexist_bonus] of the config in force to a non-negative integer,
    every tier returned with [wrap_coexist=False] is matched, on the same
    inputs, by a tier at least as high with [wrap_coexist=True]. *)
Theorem baseline_le_overall
    candidates cache cls meth mods entries config (bonus : Z) (i : nat) :
  wrap_coexist_bonus (fst (effective_config candidates cache config)) = Ok bonus ->
  0 <= bonus ->
  tier_rank (severity (fst (compute_impact_unified candidates cache cls meth mods
                              entries config false))) = Some i ->
  exists j,
    tier_rank (severity (fst (compute_impact_unified candidates cache cls meth mods
                                entries config true))) = Some j
    /\ (i <= j)%nat.
Proof.
  unfold compute_impact_unified, wrap_coexist_bonus.
  destruct (effective_config candidates cache config) as [cfg cache'].
  cbn [fst]. unfold impact_body. intros Hb Hpos Hbase.
  destruct (dict_at cfg "weights") as [weights|]; cbn [bind] in *; [|discriminate].
  destruct (dict_at cfg "thresholds") as [thresholds|]; cbn [bind] in *;
    [|discriminate].
  rewrite impact_score_wrap, Hb.
  destruct (impact_score weights cls meth mods entries false) as [s|];
    cbn [bind] in *; [|discriminate].
  destruct (severity_of_score thresholds s) as [sev|] eqn:Hsev;
    cbn [bind severity] in *; [|discriminate].
  destruct (severity_of_score_mono thresholds s (s + bonus) sev i)
    as (sev' & j & Hsev' & Hj & Hij); [lia | assumption | assumption |].
  rewrite Hsev'. cbn [bind severity]. eauto.
Qed.

Lemma baseline_le_overall_witness :
  exists j,
    tier_rank (severity (fst (compute_impact_unified [] None
      "PlayerStatusUIController" "UpdatePlayer" ["ModA"; "ModB"] [sample_entry]
      None true))) = Some j
    /\ (1 <= j)%nat.
Proof.
  apply (baseline_le_overall [] None "PlayerStatusUIController" "UpdatePlayer"
           ["ModA"; "ModB"] [sample_entry] None 12 1).
  - reflexivity.
  - lia.
  - reflexivity.
Defined.

(** C2, as stated, fails: the float infinity is a non-negative bonus, but
    [int] raises on it, and the bonus is read only when
    [wrap_coexist=True]; the baseline is then Critical and the overall
    result the empty fallback, which is no tier and which the repository's
    test places at the bottom. *)
Lemma baseline_le_overall_counterexample :
  bonus_weight infinite_bonus_config = Ok (PFloat (FInf false))
  /\ nonneg_weight (PFloat (FInf false))
  /\ fst (compute_impact_unified [] None "Foo" "Bar" ["A"; "B"] []
            (Some infinite_bonus_config) false)
     = {| severity := "Critical"; message := "impact.symptom.other" |}
  /\ fst (compute_impact_unified [] None "Foo" "Bar" ["A"; "B"] []
            (Some infinite_bonus_config) true) = empty_impact
  /\ ~ (forall candidates cache cls meth mods entries config v,
          bonus_weight (fst (effective_config candidates cache config)) = Ok v ->
          nonneg_weight v ->
          (tier_index (severity (fst (compute_impact_unified candidates cache cls meth
                                        mods entries config false)))
           <= tier_index (severity (fst (compute_impact_unified candidates cache cls
                                           meth mods entries config true))))%nat).
Proof.
  split; [reflexivity|]. split; [reflexivity|].
  split; [reflexivity|]. split; [reflexivity|].
  intros H.
  specialize (H [] None "Foo" "Bar" ["A"; "B"] [] (Some infinite_bonus_config)
                (PFloat (FInf false)) eq_refl eq_refl).
  vm_compute in H. lia.
Qed.

(** *** Severity boundaries *)

Lemma severity_of_score_default s :
  severity_of_score default_thresholds s = Ok (spec_tier s).
Proof.
  unfold severity_of_score, spec_tier.
  change (int_at default_thresholds "critical" 80) with (Ok (A := Z) 95).
  change (int_at default_thresholds "high" 60) with (Ok (A := Z) 70).
  change (int_at default_thresholds "medium" 40) with (Ok (A := Z) 45).
  cbn [bind].
  destruct (Z.geb_spec s 95), (Z.leb_spec 95 s); try lia; try reflexivity.
  destruct (Z.geb_spec s 70), (Z.leb_spec 70 s); try lia; try reflexivity.
  destruct (Z.geb_spec s 45), (Z.leb_spec 45 s); try lia; reflexivity.
Qed.

Lemma keyword_score_ints items text :
  Forall int_valued items ->
  forall score, exists s, keyword_score items text score = Ok s.
Proof.
  induction 1 as [|[kw w] rest [z Hz] _ IH]; intros score; cbn [keyword_score].
  - eauto.
  - cbn [snd] in Hz. subst w. destruct (PyStr.contains kw text); cbn [py_int bind]; apply IH.
Qed.

Lemma default_score_defined cls meth mods entries wrap :
  exists s, impact_score default_weights cls meth mods entries wrap = Ok s.
Proof.
  unfold impact_score.
  change (int_at default_weights "per_mod" 0) with (Ok (A := Z) 10).
  cbn [bind].
  destruct (dict_at default_weights "class_keywords") as [ckw|] eqn:Hc;
    [|discriminate].
  destruct (dict_at default_weights "method_keywords") as [mkw|] eqn:Hm;
    [|discriminate].
  injection Hc as <-. injection Hm as <-.
  cbn [bind py_items py_or truthy].
  match goal with
  | |- context [keyword_score ?items ?text ?sc] =>
      destruct (keyword_score_ints items text) with (score := sc) as [s1 ->]
  end.
  { repeat constructor; eexists; reflexivity. }
  cbn [bind].
  match goal with
  | |- context [keyword_score ?items ?text ?sc] =>
      destruct (keyword_score_ints items text) with (score := sc) as [s2 ->]
  end.
  { repeat constructor; eexists; reflexivity. }
  cbn [bind].
  change (dict_at default_weights "signature")
    with (Ok (PDict [("per_arg", PInt 3); ("has_return", PInt 6)])).
  cbn [bind].
  change (int_at (PDict [("per_arg", PInt 3); ("has_return", PInt 6)]) "per_arg" 0)
    with (Ok (A := Z) 3).
  change (int_at (PDict [("per_arg", PInt 3); ("has_return", PInt 6)]) "has_return" 0)
    with (Ok (A := Z) 6).
  cbn [bind].
  change (int_at default_weights "wrap_coexist_bonus" 0) with (Ok (A := Z) 12).
  destruct wrap; cbn [bind]; eauto.
Qed.

(** C3. Under the default profile the label is chosen from the score by
    inclusive lower bounds 95, 70 and 45, for every input; inputs scoring
    44, 45, 69, 70, 94 and 95 get Low, Medium, Medium, High, High and
    Critical. *)
Theorem severity_boundaries :
  (forall candidates cache config cls meth mods entries wrap,
      fst (effective_config candidates cache config) = _IMPACT_DEFAULT_CONFIG ->
      exists s,
        impact_score default_weights cls meth mods entries wrap = Ok s
        /\ severity (fst (compute_impact_unified candidates cache cls meth mods
                            entries config wrap)) = spec_tier s)
  /\ scored "QuestSystem" "Tick" ["A"; "B"] [] false = (Ok 44, "Low")
  /\ scored "VehicleUI" "Update" ["A"] [] false = (Ok 45, "Medium")
  /\ scored "Vehicle" "Update" ["A"; "B"; "C"] [] true = (Ok 69, "Medium")
  /\ scored "Vehicle" "Update" ["A"; "B"; "C"; "D"] [sig_entry "func Update(a: Int32)"]
       false = (Ok 70, "High")
  /\ scored "Vehicle" "Update" ["A"; "B"; "C"; "D"]
       [sig_entry "func Update(a: Int32, b: Int32, c: Int32, d: Int32, e: Int32)"]
       true = (Ok 94, "High")
  /\ scored "Vehicle" "Update" ["A"; "B"; "C"; "D"; "E"]
       [sig_entry "func Update() -> Bool"] true = (Ok 95, "Critical").
Proof.
  split; [|repeat split; vm_compute; reflexivity].
  intros candidates cache config cls meth mods entries wrap Hcfg.
  destruct (default_score_defined cls meth mods entries wrap) as [s Hs].
  exists s. split; [assumption|].
  unfold compute_impact_unified.
  destruct (effective_config candidates cache config) as [cfg cache'].
  cbn [fst] in *. subst cfg. unfold impact_body.
  change (dict_at _IMPACT_DEFAULT_CONFIG "weights") with (Ok default_weights).
  change (dict_at _IMPACT_DEFAULT_CONFIG "thresholds") with (Ok default_thresholds).
  cbn [bind]. rewrite Hs. cbn [bind].
  rewrite severity_of_score_default. reflexivity.
Qed.

Lemma severity_boundaries_witness :
  exists s,
    impact_score default_weights "Vehicle" "Update" ["A"; "B"; "C"; "D"] [] false = Ok s
    /\ severity (fst (compute_impact_unified [None; None] None "Vehicle" "Update"
                        ["A"; "B"; "C"; "D"] [] None false)) = spec_tier s.
Proof.
  apply (proj1 severity_boundaries [None; None] None None).
  reflexivity.
Defined.

(** *** Determinism *)

(** C7, as stated, fails: with [config] omitted the result follows the
    profile file found when the call is made. *)
Lemma determinism_counterexample :
  call_twice [None; None; None] [None; Some late_profile; None] None
    "Foo" "Bar" ["ModA"; "ModB"] [] None false
  = ({| severity := "Low"; message := "impact.symptom.other" |},
     {| severity := "Critical"; message := "impact.symptom.other" |})
  /\ ~ (forall before after cache cls meth mods entries config wrap,
          fst (call_twice before after cache cls meth mods entries config wrap)
          = snd (call_twice before after cache cls meth mods entries config wrap)).
Proof.
  split; [reflexivity|].
  intros H.
  specialize (H [None; None; None] [None; Some late_profile; None] None
                "Foo" "Bar" ["ModA"; "ModB"] [] None false).
  vm_compute in H. discriminate H.
Qed.

Lemma default_config_stable candidates cache :
  let '(cfg, cache1) := get_default_impact_config candidates cache in
  get_default_impact_config candidates cache1 = (cfg, cache1).
Proof.
  unfold get_default_impact_config, _load_external_default.
  destruct cache as [d|]; [reflexivity|].
  destruct (first_profile candidates) as [d|]; reflexivity.
Qed.

(** C7, amended. With a non-empty [config] the result is a function of
    the arguments alone and the cache is left as it was; whatever the
    [config], two calls in a row over unchanged candidate files return
    the same result. *)
Theorem compute_impact_deterministic :
  (forall before after cache cache' cls meth mods entries cfg wrap,
      truthy cfg = true ->
      fst (compute_impact_unified before cache cls meth mods entries (Some cfg) wrap)
      = fst (compute_impact_unified after cache' cls meth mods entries (Some cfg) wrap)
      /\ snd (compute_impact_unified before cache cls meth mods entries (Some cfg) wrap)
         = cache)
  /\ (forall candidates cache cls meth mods entries config wrap,
        fst (call_twice candidates candidates cache cls meth mods entries config wrap)
        = snd (call_twice candidates candidates cache cls meth mods entries config wrap)).
Proof.
  split.
  - intros before after cache cache' cls meth mods entries cfg wrap Ht.
    unfold compute_impact_unified, effective_config. rewrite Ht. split; reflexivity.
  - intros candidates cache cls meth mods entries config wrap.
    unfold call_twice, compute_impact_unified, effective_config.
    destruct config as [c|]; [destruct (truthy c); [reflexivity|]|];
      pose proof (default_config_stable candidates cache) as Hs;
      destruct (get_default_impact_config candidates cache) as [cfg cache1];
      rewrite Hs; reflexivity.
Qed.

Lemma compute_impact_deterministic_witness :
  fst (compute_impact_unified [None] None "Foo" "Bar" ["ModA"] [] (Some late_profile) true)
  = fst (compute_impact_unified [Some late_profile] (Some _IMPACT_DEFAULT_CONFIG)
           "Foo" "Bar" ["ModA"] [] (Some late_profile) true)
  /\ snd (compute_impact_unified [None] None "Foo" "Bar" ["ModA"] []
            (Some late_profile) true) = None.
Proof.
  apply (proj1 compute_impact_deterministic [None] [Some late_profile] None
           (Some _IMPACT_DEFAULT_CONFIG) "Foo" "Bar" ["ModA"] [] late_profile true).
  reflexivity.
Defined.

(** *** Failure semantics *)

(** C8. The scorer returns a value on every input: the empty pair exactly
    when the body of the [try] block raises (whatever the exception), and
    otherwise a tier with a symptom message.  A config that is no dict, a
    weight that is no number and an unreadable threshold all give the
    empty pair. *)
Theorem compute_impact_never_raises :
  (forall candidates cache cls meth mods entries config wrap,
      let cfg := fst (effective_config candidates cache config) in
      let r := fst (compute_impact_unified candidates cache cls meth mods entries
                      config wrap) in
      (forall e, impact_body cfg cls meth mods entries wrap = Raise e ->
                 r = empty_impact)
      /\ (forall r', impact_body cfg cls meth mods entries wrap = Ok r' ->
                     r = r' /\ well_formed r))
  /\ (forall candidates cache cls meth mods entries wrap,
        fst (compute_impact_unified candidates cache cls meth mods entries
               (Some (PList [PInt 1])) wrap) = empty_impact)
  /\ (forall candidates cache cls meth mods entries wrap,
        fst (compute_impact_unified candidates cache cls meth mods entries
               (Some (PDict [("weights", PDict [("per_mod", PNone)])])) wrap)
        = empty_impact)
  /\ (forall candidates cache cls meth mods entries wrap,
        fst (compute_impact_unified candidates cache cls meth mods entries
               (Some (PDict [("thresholds", PDict [("critical", PStr "high")])])) wrap)
        = empty_impact).
Proof.
  split; [|repeat split; intros; try reflexivity].
  2:{ unfold compute_impact_unified, effective_config, impact_body, impact_score.
      cbn [truthy fst bind dict_at int_at py_get py_int py_or py_items assoc_get
           String.eqb Ascii.eqb Bool.eqb keyword_score].
      destruct (has_return _), wrap; reflexivity. }
  intros candidates cache cls meth mods entries config wrap cfg r.
  subst cfg r. unfold compute_impact_unified.
  destruct (effective_config candidates cache config) as [cfg cache'].
  cbn [fst]. split.
  - intros e ->. reflexivity.
  - intros r' Hr. rewrite Hr. split; [reflexivity|].
    unfold impact_body in Hr.
    destruct (dict_at cfg "weights") as [w|]; cbn [bind] in Hr; [|discriminate].
    destruct (dict_at cfg "thresholds") as [t|]; cbn [bind] in Hr; [|discriminate].
    destruct (impact_score w cls meth mods entries wrap) as [s|];
      cbn [bind] in Hr; [|discriminate].
    destruct (severity_of_score t s) as [sev|] eqn:Hsev; cbn [bind] in Hr;
      [|discriminate].
    injection Hr as <-. split; cbn [severity message].
    + eapply severity_of_score_rank; eassumption.
    + generalize (classify_conflict_symptom cls meth
                  ++ (if wrap then " impact.extra.wrapCoexist" else ""))%string.
      intros tail. destruct tail; reflexivity.
Qed.

Lemma compute_impact_never_raises_witness :
  fst (compute_impact_unified [] None "Foo" "Bar" ["ModA"] []
         (Some (PDict [("weights", PInt 7)])) false) = empty_impact.
Proof.
  apply (proj1 (proj1 compute_impact_never_raises [] None "Foo" "Bar" ["ModA"] []
                  (Some (PDict [("weights", PInt 7)])) false) AttributeError).
  reflexivity.
Defined.

Local Close Scope Z_scope.


(** ** Facts on insertion-ordered dictionaries *)

Section DefaultDictFacts.
Context {K V : Type} (keq : K -> K -> bool) (dflt : V).
Hypothesis keq_eq : forall a b, keq a b = true <-> a = b.

Lemma keq_refl k : keq k k = true.
Proof. now apply keq_eq. Qed.

Lemma keq_neq a b : a <> b -> keq a b = false.
Proof.
  intros Hne. destruct (keq a b) eqn:E; [|reflexivity].
  apply keq_eq in E. contradiction.
Qed.

Lemma dd_value_update k k' (f : V -> V) d :
  dd_value keq dflt k' (dd_update keq dflt k f d) =
  if keq k k' then f (dd_value keq dflt k d) else dd_value keq dflt k' d.
Proof.
  unfold dd_value. induction d as [|[k1 v1] r IH]; cbn [dd_update dd_lookup].
  - destruct (keq k k'); reflexivity.
  - destruct (keq k1 k) eqn:E1.
    + apply keq_eq in E1. subst k1. cbn [dd_lookup].
      destruct (keq k k'); reflexivity.
    + cbn [dd_lookup]. destruct (keq k1 k') eqn:E2.
      * apply keq_eq in E2. subst k1.
        destruct (keq k k') eqn:E3; [|reflexivity].
        apply keq_eq in E3. subst k'. rewrite keq_refl in E1. discriminate.
      * exact IH.
Qed.

Lemma dd_keys_update k (f : V -> V) d k' :
  In k' (map fst (dd_update keq dflt k f d)) <-> k' = k \/ In k' (map fst d).
Proof.
  induction d as [|[k1 v1] r IH]; cbn [dd_update map fst In].
  - intuition.
  - destruct (keq k1 k) eqn:E1; cbn [map fst In].
    + apply keq_eq in E1. subst k1. intuition.
    + rewrite IH. intuition.
Qed.

Lemma dd_keys_NoDup k (f : V -> V) d :
  NoDup (map fst d) -> NoDup (map fst (dd_update keq dflt k f d)).
Proof.
  induction d as [|[k1 v1] r IH]; cbn [dd_update map fst]; intros Hnd.
  - constructor; [intros [] | constructor].
  - inversion Hnd as [|? ? Hnotin Hnd']; subst.
    destruct (keq k1 k) eqn:E1; cbn [map fst].
    + constructor; assumption.
    + constructor; [|auto].
      rewrite dd_keys_update. intros [->|Hin]; [|contradiction].
      rewrite keq_refl in E1. discriminate.
Qed.

Lemma dd_lookup_absent k (d : list (K * V)) : ~ In k (map fst d) -> dd_lookup keq k d = None.
Proof.
  induction d as [|[k1 v1] r IH]; cbn [dd_lookup map fst In]; intros Hn.
  - reflexivity.
  - rewrite keq_neq by intuition. apply IH. intuition.
Qed.

(** What a loop over the items of [d] emits for one key, when each item
    emits only groups of its own key and nothing for the default value. *)
Lemma dd_select {G : Type} (emit : K * V -> list G) (gkey : G -> K) k
    (d : list (K * V)) :
  NoDup (map fst d) ->
  (forall k1 v x, In x (emit (k1, v)) -> gkey x = k1) ->
  emit (k, dflt) = [] ->
  filter (fun x => keq (gkey x) k) (flat_map emit d) = emit (k, dd_value keq dflt k d).
Proof.
  intros Hnd Hkey Hdflt. unfold dd_value.
  induction d as [|[k1 v1] r IH]; cbn [flat_map dd_lookup].
  - now rewrite Hdflt.
  - inversion Hnd as [|? ? Hnotin Hnd']; subst.
    rewrite filter_app. destruct (keq k1 k) eqn:E1.
    + apply keq_eq in E1. subst k1.
      rewrite (IH Hnd'), (dd_lookup_absent k r Hnotin), Hdflt, app_nil_r.
      apply forallb_filter_id, forallb_forall.
      intros x Hx. rewrite (Hkey _ _ _ Hx). apply keq_refl.
    + rewrite (IH Hnd').
      rewrite (filter_ext_in _ (fun _ => false)), filter_false; [reflexivity|].
      intros x Hx. rewrite (Hkey _ _ _ Hx). exact E1.
Qed.

(** Folding [dd_update] over a list keeps the keys distinct. *)
Lemma dd_fold_NoDup {X : Type} (key : X -> K) (upd : X -> V -> V) xs d :
  NoDup (map fst d) ->
  NoDup (map fst (fold_left (fun d x => dd_update keq dflt (key x) (upd x) d) xs d)).
Proof.
  revert d. induction xs as [|x xs IH]; intros d Hnd; cbn [fold_left].
  - assumption.
  - apply IH, dd_keys_NoDup, Hnd.
Qed.
End DefaultDictFacts.

Section ListDictFacts.
Context {K X : Type} (keq : K -> K -> bool).
Hypothesis keq_eq : forall a b, keq a b = true <-> a = b.

(** [d[key(x)].append(x)] for every [x]: each bucket holds, in order, the
    elements with its key. *)
Lemma dd_append_value (key : X -> K) xs d k :
  dd_value keq [] k
    (fold_left (fun d x => dd_update keq [] (key x) (fun l => (l ++ [x])%list) d) xs d)
  = (dd_value keq [] k d ++ filter (fun x => keq (key x) k) xs)%list.
Proof.
  revert d. induction xs as [|x xs IH]; intros d; cbn [fold_left filter].
  - now rewrite app_nil_r.
  - rewrite IH, (dd_value_update keq [] keq_eq).
    destruct (keq (key x) k) eqn:E.
    + apply keq_eq in E. subst k. now rewrite <- app_assoc.
    + reflexivity.
Qed.

(** Concatenating the buckets stored under one key gives that bucket. *)
Lemma dd_concat_key k (d : list (K * list X)) :
  NoDup (map fst d) ->
  flat_map (fun it => if keq (fst it) k then snd it else []) d = dd_value keq [] k d.
Proof.
  unfold dd_value.
  induction d as [|[k1 v1] r IH]; cbn [flat_map dd_lookup fst snd map]; intros Hnd.
  - reflexivity.
  - inversion Hnd as [|? ? Hnotin Hnd']; subst.
    destruct (keq k1 k) eqn:E.
    + apply keq_eq in E. subst k1.
      rewrite (IH Hnd'), (dd_lookup_absent keq keq_eq k r Hnotin).
      apply app_nil_r.
    + apply (IH Hnd').
Qed.
End ListDictFacts.

(** ** The order of strings and [sorted] *)

Lemma ascii_compare_lt_trans a b c :
  Ascii.compare a b = Lt -> Ascii.compare b c = Lt -> Ascii.compare a c = Lt.
Proof.
  unfold Ascii.compare. rewrite !N.compare_lt_iff. apply N.lt_trans.
Qed.

Lemma ascii_compare_refl c : Ascii.compare c c = Eq.
Proof. unfold Ascii.compare. apply N.compare_refl. Qed.

Lemma string_compare_refl s : String.compare s s = Eq.
Proof.
  induction s as [|c s IH]; cbn [String.compare]; [reflexivity|].
  now rewrite ascii_compare_refl.
Qed.

Lemma string_compare_lt_trans a :
  forall b c, String.compare a b = Lt -> String.compare b c = Lt -> String.compare a c = Lt.
Proof.
  induction a as [|x a IH]; intros [|y b] [|z c]; cbn [String.compare];
    try discriminate; try reflexivity.
  destruct (Ascii.compare x y) eqn:Exy; try discriminate;
    destruct (Ascii.compare y z) eqn:Eyz; try discriminate; intros Hab Hbc.
  - apply Ascii.compare_eq_iff in Exy, Eyz. subst y z.
    rewrite ascii_compare_refl.
    eapply IH; eassumption.
  - apply Ascii.compare_eq_iff in Exy. subst y. now rewrite Eyz.
  - apply Ascii.compare_eq_iff in Eyz. subst z. now rewrite Exy.
  - now rewrite (ascii_compare_lt_trans x y z).
Qed.

Lemma str_lt_irrefl a : ~ str_lt a a.
Proof. unfold str_lt, String.ltb. now rewrite string_compare_refl. Qed.

Lemma str_lt_trans a b c : str_lt a b -> str_lt b c -> str_lt a c.
Proof.
  unfold str_lt, String.ltb.
  destruct (String.compare a b) eqn:Eab; try discriminate.
  destruct (String.compare b c) eqn:Ebc; try discriminate.
  now rewrite (string_compare_lt_trans a b c).
Qed.

Lemma str_lt_total a b : String.ltb b a = false -> a <> b -> str_lt a b.
Proof.
  unfold str_lt, String.ltb. rewrite (String.compare_antisym a b).
  destruct (String.compare b a) eqn:E; cbn [CompOpp]; intros H Hne;
    try discriminate; try reflexivity.
  apply String.compare_eq_iff in E. now subst.
Qed.

Lemma insert_sorted_In x l y : In y (insert_sorted x l) <-> y = x \/ In y l.
Proof.
  induction l as [|z l IH]; cbn [insert_sorted In].
  - intuition.
  - destruct (String.ltb z x); cbn [In]; [rewrite IH|]; intuition.
Qed.

Lemma insert_sorted_sorted x l :
  StronglySorted str_lt l -> ~ In x l -> StronglySorted str_lt (insert_sorted x l).
Proof.
  induction 1 as [|z l Hs IH Hall]; cbn [insert_sorted In]; intros Hn.
  - repeat constructor.
  - destruct (String.ltb z x) eqn:E.
    + constructor; [apply IH; intuition|].
      apply Forall_forall. intros y Hy. apply insert_sorted_In in Hy as [->|Hy].
      * exact E.
      * rewrite Forall_forall in Hall. now apply Hall.
    + assert (Hxz : str_lt x z) by (apply str_lt_total; intuition).
      constructor; [now constructor|].
      constructor; [assumption|].
      eapply Forall_impl; [|exact Hall]. intros y Hy. eapply str_lt_trans; eassumption.
Qed.

Lemma py_sorted_In l y : In y (py_sorted l) <-> In y l.
Proof.
  induction l as [|x l IH]; cbn [py_sorted fold_right In]; [tauto|].
  fold (py_sorted l). rewrite insert_sorted_In, IH. intuition.
Qed.

Lemma py_sorted_sorted l : NoDup l -> StronglySorted str_lt (py_sorted l).
Proof.
  induction 1 as [|x l Hn Hnd IH]; cbn [py_sorted fold_right]; [constructor|].
  fold (py_sorted l). apply insert_sorted_sorted; [assumption|].
  now rewrite py_sorted_In.
Qed.

Lemma StronglySorted_str_lt_NoDup l : StronglySorted str_lt l -> NoDup l.
Proof.
  induction 1 as [|x l Hs IH Hall]; constructor; [|assumption].
  intros Hin. rewrite Forall_forall in Hall. exact (str_lt_irrefl x (Hall x Hin)).
Qed.

Lemma sorted_set_mods occs : mods_of (sorted_set Report.mod_or_unknown occs) occs.
Proof.
  unfold sorted_set.
  assert (Hs : StronglySorted str_lt
                 (py_sorted (nodup string_dec (map Report.mod_or_unknown occs))))
    by apply py_sorted_sorted, NoDup_nodup.
  split; [exact Hs|]. split; [now apply StronglySorted_str_lt_NoDup|].
  intros m. rewrite py_sorted_In, nodup_In, in_map_iff. reflexivity.
Qed.

Lemma annotation_eqb_eq a b : annotation_eqb a b = true <-> a = b.
Proof. destruct a, b; cbn; split; intros H; try reflexivity; discriminate. Qed.

Lemma key3_eqb_eq (a b : key3) : key3_eqb a b = true <-> a = b.
Proof.
  destruct a as [[a1 a2] a3], b as [[b1 b2] b3]. unfold key3_eqb.
  rewrite !andb_true_iff, annotation_eqb_eq, !String.eqb_eq.
  split; [intros [[-> ->] ->]; reflexivity | intros [= -> -> ->]; auto].
Qed.

Lemma key2_eqb_eq (a b : key2) : key2_eqb a b = true <-> a = b.
Proof.
  destruct a as [a1 a2], b as [b1 b2]. unfold key2_eqb. cbn [fst snd].
  rewrite andb_true_iff, !String.eqb_eq.
  split; [intros [-> ->]; reflexivity | intros [= -> ->]; auto].
Qed.

Lemma group_by_key_NoDup es : NoDup (map fst (group_by_key es)).
Proof.
  unfold group_by_key.
  apply (dd_fold_NoDup key3_eqb [] key3_eqb_eq key_of (fun e l => (l ++ [e])%list)).
  constructor.
Qed.

Lemma group_by_key_value es k :
  dd_value key3_eqb [] k (group_by_key es) = filter (fun e => key3_eqb (key_of e) k) es.
Proof.
  unfold group_by_key. now rewrite (dd_append_value key3_eqb key3_eqb_eq).
Qed.

Lemma kind_sel_extend a ann lst k :
  kind_sel a (extend_kind ann lst k)
  = (kind_sel a k ++ (if annotation_eqb ann a then lst else []))%list.
Proof. destruct a, ann; cbn; now rewrite ?app_nil_r. Qed.

Lemma group_by_cm_NoDup items : NoDup (map fst (group_by_cm items)).
Proof.
  unfold group_by_cm.
  assert (H : forall d, NoDup (map fst d) ->
                        NoDup (map fst (fold_left add_bucket items d))).
  { induction items as [|[[[ann cls] meth] lst] items IH]; intros d Hd; cbn [fold_left].
    - assumption.
    - apply IH. unfold add_bucket. now apply (dd_keys_NoDup key2_eqb no_kinds key2_eqb_eq). }
  apply H. constructor.
Qed.

Lemma group_by_cm_value a c m items :
  forall d,
    kind_sel a (dd_value key2_eqb no_kinds (c, m) (fold_left add_bucket items d))
    = (kind_sel a (dd_value key2_eqb no_kinds (c, m) d)
       ++ flat_map (fun it => if key3_eqb (fst it) (a, c, m) then snd it else []) items)%list.
Proof.
  induction items as [|[[[ann cls] meth] lst] items IH]; intros d;
    cbn [fold_left flat_map fst snd].
  - now rewrite app_nil_r.
  - rewrite IH. unfold add_bucket.
    rewrite (dd_value_update key2_eqb no_kinds key2_eqb_eq), app_assoc. f_equal.
    unfold key3_eqb, key2_eqb. cbn [fst snd].
    destruct (cls =? c)%string eqn:Ec, (meth =? m)%string eqn:Em;
      rewrite ?andb_false_r, ?andb_true_r; cbn [andb];
      rewrite ?andb_false_r, ?app_nil_r; try reflexivity.
    apply String.eqb_eq in Ec, Em. subst. apply kind_sel_extend.
Qed.

(** The bucket of [by_cm] for a key and a kind holds the entries of that
    kind and key, in the order of [entries]. *)
Lemma bucket_spec a c m es :
  kind_sel a (dd_value key2_eqb no_kinds (c, m) (group_by_cm (group_by_key es)))
  = occurrences_of a c m es.
Proof.
  unfold group_by_cm. rewrite group_by_cm_value.
  rewrite (dd_concat_key key3_eqb key3_eqb_eq) by apply group_by_key_NoDup.
  rewrite group_by_key_value. destruct a; reflexivity.
Qed.

Lemma conflicts_for_key resolve root files c m :
  let r := build_report resolve root files in
  conflicts_for c m r
  = conflict_of ((c, m), dd_value key2_eqb no_kinds (c, m)
                           (group_by_cm (group_by_key (entries r)))).
Proof.
  cbn zeta. unfold conflicts_for, build_report. cbn [conflicts entries].
  apply (dd_select key2_eqb no_kinds key2_eqb_eq conflict_of
           (fun g => (cg_class g, cg_method g))).
  - apply group_by_cm_NoDup.
  - intros [c1 m1] v x. unfold conflict_of.
    destruct (_ && _); cbn [In]; [|tauto]. intros [<-|[]]. reflexivity.
  - reflexivity.
Qed.

Lemma replace_wrap_for_key resolve root files c m :
  let r := build_report resolve root files in
  replace_wrap_for c m r
  = replace_wrap_of ((c, m), dd_value key2_eqb no_kinds (c, m)
                               (group_by_cm (group_by_key (entries r)))).
Proof.
  cbn zeta. unfold replace_wrap_for, build_report.
  cbn [replace_wrap_coexistence entries].
  apply (dd_select key2_eqb no_kinds key2_eqb_eq replace_wrap_of
           (fun g => (rw_class g, rw_method g))).
  - apply group_by_cm_NoDup.
  - intros [c1 m1] v x. unfold replace_wrap_of.
    destruct (_ && _); cbn [In]; [|tauto]. intros [<-|[]]. reflexivity.
  - reflexivity.
Qed.

Lemma distinct_count_nil {A : Type} (f : A -> string) : distinct_count f [] = 0.
Proof. reflexivity. Qed.

(** C1. Conflict threshold: a class and method whose [replaceMethod]
    occurrences all come from one file has no group in [conflicts],
    however many occurrences there are; with occurrences from two or more
    files it has exactly one group, whose count is the number of
    occurrences. *)
Theorem conflict_threshold resolve root files c m :
  let r := build_report resolve root files in
  let occs := occurrences_of replaceMethod c m (entries r) in
  (distinct_count occ_file occs = 1 -> conflicts_for c m r = [])
  /\ (2 <= distinct_count occ_file occs ->
      exists g,
        conflicts_for c m r = [g]
        /\ cg_count g = List.length occs
        /\ cg_occurrences g = occs).
Proof.
  cbn zeta. rewrite conflicts_for_key. unfold conflict_of.
  rewrite (bucket_spec replaceMethod c m). split.
  - intros ->. cbn [Nat.ltb Nat.leb]. now rewrite andb_false_r.
  - intros Hge.
    destruct (occurrences_of replaceMethod c m _) as [|e occs] eqn:E;
      [rewrite distinct_count_nil in Hge; lia|].
    cbn [nonempty andb].
    destruct (Nat.ltb_spec 1 (distinct_count occ_file (e :: occs))); [|lia].
    eexists. repeat split.
Qed.

Lemma conflict_threshold_witness :
  conflicts_for "Foo" "Bar"
    (build_report same_path "/proj"
       [("/proj/A/bar.reds", Some bar_replace_twice)]) = []
  /\ exists g,
       conflicts_for "Foo" "Bar"
         (build_report same_path "/proj"
            [("/proj/A/bar.reds", Some bar_replace_twice);
             ("/proj/B/bar.reds", Some bar_replace)]) = [g]
       /\ cg_count g = 3
       /\ cg_occurrences g
          = occurrences_of replaceMethod "Foo" "Bar"
              (entries (build_report same_path "/proj"
                          [("/proj/A/bar.reds", Some bar_replace_twice);
                           ("/proj/B/bar.reds", Some bar_replace)])).
Proof.
  split.
  - apply (proj1 (conflict_threshold same_path "/proj"
                    [("/proj/A/bar.reds", Some bar_replace_twice)] "Foo" "Bar")).
    vm_compute. reflexivity.
  - apply (proj2 (conflict_threshold same_path "/proj"
                    [("/proj/A/bar.reds", Some bar_replace_twice);
                     ("/proj/B/bar.reds", Some bar_replace)] "Foo" "Bar")).
    vm_compute. lia.
Defined.

(** C6. A class and method has a group in [replace_wrap_coexistence]
    exactly when it has a [replaceMethod] and a [wrapMethod] occurrence,
    whatever the files; one file holding both gives the group although it
    gives neither a conflict nor a wrap coexistence group. *)
Theorem replace_wrap_coexistence_rule :
  (forall resolve root files c m,
      let r := build_report resolve root files in
      let repl := occurrences_of replaceMethod c m (entries r) in
      let wrap := occurrences_of wrapMethod c m (entries r) in
      (repl <> [] /\ wrap <> [] ->
       exists g,
         replace_wrap_for c m r = [g]
         /\ rw_occurrences_replace g = repl /\ rw_occurrences_wrap g = wrap)
      /\ (repl = [] \/ wrap = [] -> replace_wrap_for c m r = []))
  /\ (let r := build_report same_path "/proj"
                 [("/proj/A/bar.reds", Some bar_replace_wrap)] in
      conflicts r = []
      /\ wrap_coexistence r = []
      /\ map (fun g => (rw_class g, rw_method g, rw_replace_count g, rw_wrap_count g))
           (replace_wrap_coexistence r) = [("Foo", "Bar", 1, 1)]).
Proof.
  split; [|vm_compute; repeat split].
  intros resolve root files c m. cbn zeta.
  rewrite replace_wrap_for_key. unfold replace_wrap_of.
  rewrite (bucket_spec replaceMethod c m), (bucket_spec wrapMethod c m).
  destruct (occurrences_of replaceMethod c m _) as [|e1 repl],
           (occurrences_of wrapMethod c m _) as [|e2 wrap]; cbn [nonempty andb];
    (split; [intros [H1 H2]; try congruence
            | intros [H|H]; try discriminate; try reflexivity]).
  eexists. repeat split.
Qed.

Lemma replace_wrap_coexistence_rule_witness :
  exists g,
    replace_wrap_for "Foo" "Bar"
      (build_report same_path "/proj"
         [("/proj/A/bar.reds", Some bar_replace_wrap)]) = [g]
    /\ rw_occurrences_replace g
       = occurrences_of replaceMethod "Foo" "Bar"
           (entries (build_report same_path "/proj"
                       [("/proj/A/bar.reds", Some bar_replace_wrap)]))
    /\ rw_occurrences_wrap g
       = occurrences_of wrapMethod "Foo" "Bar"
           (entries (build_report same_path "/proj"
                       [("/proj/A/bar.reds", Some bar_replace_wrap)])).
Proof.
  apply (proj1 (proj1 replace_wrap_coexistence_rule same_path "/proj"
                  [("/proj/A/bar.reds", Some bar_replace_wrap)] "Foo" "Bar")).
  split; vm_compute; discriminate.
Defined.

(** C10. In every report the mod lists of the groups are in strictly
    ascending order, hence without duplicates, and hold the mod ids of
    the occurrences of the group. *)
Theorem group_mods_sorted resolve root files :
  let r := build_report resolve root files in
  (forall g, In g (conflicts r) -> mods_of (cg_mods g) (cg_occurrences g))
  /\ (forall g, In g (wrap_coexistence r) -> mods_of (wc_mods g) (wc_occurrences g))
  /\ (forall g, In g (replace_wrap_coexistence r) ->
                mods_of (rw_mods_replace g) (rw_occurrences_replace g)
                /\ mods_of (rw_mods_wrap g) (rw_occurrences_wrap g)).
Proof.
  cbn zeta. unfold build_report.
  cbn [conflicts wrap_coexistence replace_wrap_coexistence].
  split; [|split]; intros g Hg; apply in_flat_map in Hg as ([[c m] k] & _ & Hg);
    [unfold conflict_of in Hg | unfold wrap_coexistence_of in Hg
     | unfold replace_wrap_of in Hg];
    destruct (_ && _); cbn [In] in Hg; try tauto;
    destruct Hg as [<-|[]]; try split; apply sorted_set_mods.
Qed.

Lemma group_mods_sorted_witness :
  In (first_conflict (build_report same_path "/proj" two_mods))
     (conflicts (build_report same_path "/proj" two_mods))
  /\ cg_mods (first_conflict (build_report same_path "/proj" two_mods)) = ["ModA"; "ModB"]
  /\ mods_of (cg_mods (first_conflict (build_report same_path "/proj" two_mods)))
             (cg_occurrences (first_conflict (build_report same_path "/proj" two_mods))).
Proof.
  assert (Hin : In (first_conflict (build_report same_path "/proj" two_mods))
                   (conflicts (build_report same_path "/proj" two_mods)))
    by (vm_compute; left; reflexivity).
  split; [exact Hin|]. split; [reflexivity|].
  exact (proj1 (group_mods_sorted same_path "/proj" two_mods) _ Hin).
Defined.

(** C4, as stated, fails: the entry of a file at
    [/proj/SomeMod/r6/scripts/sub/File.reds] scanned from [/proj] gets the
    mod [sub], the segment after [r6/scripts], not [SomeMod]. *)
Lemma mod_attribution_counterexample :
  map occ_mod
    (entries (build_report same_path "/proj" [(somemod_file, Some bar_replace)]))
  = [Some "sub"]
  /\ ~ (forall e,
          In e (entries (build_report same_path "/proj"
                           [(somemod_file, Some bar_replace)])) ->
          occ_mod e = Some "SomeMod").
Proof.
  split; [reflexivity|].
  intros H.
  specialize (H (mkOccurrence replaceMethod "Foo" "Bar" "func Bar(a: Int32) -> Int32 {"
                   somemod_file 1 (Some "SomeMod/r6/scripts/sub/File.reds")
                   (Some "sub"))).
  assert (Hin : In (mkOccurrence replaceMethod "Foo" "Bar"
                      "func Bar(a: Int32) -> Int32 {" somemod_file 1
                      (Some "SomeMod/r6/scripts/sub/File.reds") (Some "sub"))
                   (entries (build_report same_path "/proj"
                               [(somemod_file, Some bar_replace)])))
    by (vm_compute; left; reflexivity).
  specialize (H Hin). discriminate H.
Qed.

Lemma enrich_file resolve root e : occ_file (enrich resolve root e) = occ_file e.
Proof. unfold enrich. destruct (relative_to _ _); reflexivity. Qed.

(** C4, amended. With root [/proj], every occurrence that comes from
    [/proj/SomeMod/r6/scripts/sub/File.reds] gets the mod [sub] and the
    relative path [SomeMod/r6/scripts/sub/File.reds]. *)
Theorem mod_attribution resolve files e :
  resolve "/proj" = "/proj" ->
  resolve somemod_file = somemod_file ->
  In e (entries (build_report resolve "/proj" files)) ->
  occ_file e = somemod_file ->
  occ_mod e = Some "sub"
  /\ occ_relpath e = Some "SomeMod/r6/scripts/sub/File.reds".
Proof.
  intros Hroot Hfile Hin He.
  unfold build_report in Hin. cbn [entries] in Hin. rewrite Hroot in Hin.
  apply in_map_iff in Hin as (e0 & <- & _).
  rewrite enrich_file in He.
  unfold enrich. rewrite He, Hfile. split; reflexivity.
Qed.

Lemma mod_attribution_witness :
  occ_mod (enrich same_path "/proj"
             (mkOccurrence wrapMethod "Foo" "Bar" "func Bar()" somemod_file 1 None None))
  = Some "sub"
  /\ occ_relpath (enrich same_path "/proj"
                    (mkOccurrence wrapMethod "Foo" "Bar" "func Bar()" somemod_file 1
                       None None))
     = Some "SomeMod/r6/scripts/sub/File.reds".
Proof.
  apply (mod_attribution same_path
           [(somemod_file, Some "@wrapMethod(Foo)
func Bar()")]).
  - reflexivity.
  - reflexivity.
  - vm_compute. left. reflexivity.
  - reflexivity.
Defined.

(** C9. A file that cannot be read gives no occurrence, and the report of
    a scan is the one the other files give; only [files_scanned] counts
    the file. *)
Theorem unreadable_file_skipped :
  (forall path, Scanner.scan_file path None = [])
  /\ (forall resolve root before path after,
        let r := build_report resolve root (before ++ (path, None) :: after) in
        let r' := build_report resolve root (before ++ after) in
        entries r = entries r'
        /\ annotation_counts r = annotation_counts r'
        /\ conflicts r = conflicts r'
        /\ wrap_coexistence r = wrap_coexistence r'
        /\ replace_wrap_coexistence r = replace_wrap_coexistence r'
        /\ files_scanned r = S (files_scanned r')).
Proof.
  split; [reflexivity|].
  intros resolve root before path after. cbn zeta. unfold build_report.
  cbn [entries annotation_counts conflicts wrap_coexistence replace_wrap_coexistence
       files_scanned].
  rewrite !flat_map_app. cbn [flat_map fst snd Scanner.scan_file app].
  repeat split. rewrite !length_app. cbn [List.length]. lia.
Qed.

Lemma emit_length path method func_sig pend :
  List.length (flat_map (Scanner.emit path method func_sig) pend) = class_pairs pend.
Proof.
  unfold class_pairs.
  induction pend as [|[[ann classes] ln] pend IH]; cbn [flat_map map list_sum fst snd].
  - reflexivity.
  - rewrite length_app, IH. unfold Scanner.emit. now rewrite length_map.
Qed.

Lemma emit_method path method func_sig pend :
  Forall (fun e => occ_method e = method /\ occ_func_sig e = func_sig)
         (flat_map (Scanner.emit path method func_sig) pend).
Proof.
  apply Forall_forall. intros e He.
  apply in_flat_map in He as ([[ann classes] ln] & _ & He).
  unfold Scanner.emit in He. apply in_map_iff in He as (cls & <- & _).
  split; reflexivity.
Qed.

(** C5. At a function declaration line the scanner appends one entry for
    each pending annotation and each class it lists, all naming the
    function, and empties the buffer; with an empty buffer no line adds an
    entry.  Two stacked annotations give two entries, one annotation with
    two classes gives two entries, a function alone gives none. *)
Theorem flush_emits_per_pair :
  (forall path st idx line method,
      Scanner.ANNOTATION_RE line = None ->
      (PyStr.strip line =? "")%string || Scanner.COMMENT_RE line = false ->
      PyStr.contains " func " (String " "%char line) = true ->
      Scanner.FUNC_RE line = Some method ->
      let emitted :=
        flat_map (Scanner.emit path method (PyStr.strip line)) (Scanner.pending st) in
      let st' := Scanner.scan_line path st idx line in
      Scanner.entries st' = (Scanner.entries st ++ emitted)%list
      /\ List.length emitted = class_pairs (Scanner.pending st)
      /\ Forall (fun e => occ_method e = method /\ occ_func_sig e = PyStr.strip line)
                emitted
      /\ Scanner.pending st' = [])
  /\ (forall path st idx line,
        Scanner.pending st = [] ->
        Scanner.entries (Scanner.scan_line path st idx line) = Scanner.entries st)
  /\ (forall path,
        map summary
          (Scanner.scan_file path (Some "@replaceMethod(Foo)
@wrapMethod(Foo)
func Bar(a: Int32) -> Int32 {}"))
        = [(replaceMethod, "Foo", "Bar", 1); (wrapMethod, "Foo", "Bar", 2)])
  /\ (forall path,
        map summary
          (Scanner.scan_file path (Some "@replaceMethod(Foo, Bar)
func Baz()"))
        = [(replaceMethod, "Foo", "Baz", 1); (replaceMethod, "Bar", "Baz", 1)])
  /\ (forall path, Scanner.scan_file path (Some "func Baz()") = []).
Proof.
  split; [|split; [|repeat split; intros; reflexivity]].
  - intros path st idx line method Hann Hskip Hfunc Hre. cbn zeta.
    unfold Scanner.scan_line. rewrite Hann, Hskip, Hfunc, Hre.
    split; [|split; [apply emit_length | split; [apply emit_method|]]].
    + destruct (Scanner.pending st); cbn [Scanner.entries flat_map];
        [now rewrite app_nil_r | reflexivity].
    + destruct (Scanner.pending st); reflexivity.
  - intros path st idx line Hp. unfold Scanner.scan_line. rewrite Hp.
    destruct (Scanner.ANNOTATION_RE line) as [[ann g]|]; [reflexivity|].
    destruct (_ || _); [reflexivity|].
    destruct (PyStr.contains _ _); [|reflexivity].
    destruct (Scanner.FUNC_RE line); reflexivity.
Qed.

Lemma flush_emits_per_pair_witness :
  let st := Scanner.mkScan []
              [(replaceMethod, ["Foo"; "Bar"], 1); (wrapMethod, ["Foo"], 2)] in
  let emitted :=
    flat_map (Scanner.emit "a.reds" "Baz" (PyStr.strip "  public func Baz(x: Int32)"))
      (Scanner.pending st) in
  let st' := Scanner.scan_line "a.reds" st 3 "  public func Baz(x: Int32)" in
  Scanner.entries st' = (Scanner.entries st ++ emitted)%list
  /\ List.length emitted = class_pairs (Scanner.pending st)
  /\ Forall (fun e => occ_method e = "Baz"
                      /\ occ_func_sig e = PyStr.strip "  public func Baz(x: Int32)")
            emitted
  /\ Scanner.pending st' = [].
Proof.
  apply (proj1 flush_emits_per_pair "a.reds"
           (Scanner.mkScan []
              [(replaceMethod, ["Foo"; "Bar"], 1); (wrapMethod, ["Foo"], 2)])
           3 "  public func Baz(x: Int32)" "Baz"); reflexivity.
Defined.

(** ** Scanner: further properties *)





(** X2. A statement between an annotation block and a function
    declaration discards the block: whatever was pending, the function
    gets no entry. *)
Theorem unrelated_line_discards path st idx u f method :
  unrelated_line u ->
  func_line f method ->
  Scanner.scan_lines path st idx [u; f] = Scanner.mkScan (Scanner.entries st) [].
Proof.
  intros (Hu1 & Hu2 & Hu3 & Hu4) (Hf1 & Hf2 & Hf3 & Hf4).
  cbn [Scanner.scan_lines]. unfold Scanner.scan_line.
  rewrite Hu1, Hu2, Hu3, Hu4, Hf1, Hf2, Hf3, Hf4.
  destruct st as [es [|p pend]]; reflexivity.
Qed.

Lemma unrelated_line_discards_witness :
  Scanner.scan_lines "a.reds"
    (Scanner.mkScan [] [(replaceMethod, ["Foo"], 1)]) 2
    ["let x: Int32 = 0;"; "func Bar()"]
  = Scanner.mkScan [] [].
Proof.
  apply (unrelated_line_discards "a.reds"
           (Scanner.mkScan [] [(replaceMethod, ["Foo"], 1)]) 2
           "let x: Int32 = 0;" "func Bar()" "Bar");
    repeat split; reflexivity.
Defined.

Lemma pending_justified_next lines idx pend :
  Forall (pending_justified lines idx) pend ->
  Forall (pending_justified lines (S idx)) pend.
Proof.
  apply Forall_impl. intros p (Hlt & H). split; [lia | exact H].
Qed.

Lemma scan_line_invariant path lines idx st line :
  line_no lines idx = Some line ->
  scan_invariant path lines idx st ->
  scan_invariant path lines (S idx) (Scanner.scan_line path st idx line).
Proof.
  intros Hline [Hp He]. unfold Scanner.scan_line.
  destruct (Scanner.ANNOTATION_RE line) as [[ann g]|] eqn:Hann.
  { split; cbn [Scanner.pending Scanner.entries]; [|assumption].
    apply Forall_app. split; [now apply pending_justified_next|].
    constructor; [|constructor].
    split; cbn [fst snd]; [lia|]. exists line, g. auto. }
  destruct (_ || _).
  { split; [now apply pending_justified_next | assumption]. }
  destruct (PyStr.contains _ _).
  - destruct (Scanner.FUNC_RE line) as [method|] eqn:Hf;
      [destruct (Scanner.pending st) as [|p0 pend] eqn:Hpend|];
      (split; cbn [Scanner.pending Scanner.entries]; [constructor|]); try assumption.
    apply Forall_app. split; [assumption|].
    apply Forall_forall. intros e Hin.
    apply in_flat_map in Hin as ([[ann classes] ln] & Hin & Hemit).
    rewrite Forall_forall in Hp. destruct (Hp _ Hin) as (Hlt & l & g & Hl & Hre & Hcls).
    cbn [fst snd] in *.
    unfold Scanner.emit in Hemit. apply in_map_iff in Hemit as (cls & <- & Hc).
    cbn [occ_file occ_relpath occ_mod occ_line occ_annotation occ_class occ_method
         occ_func_sig].
    repeat split. exists l, g, idx, line. subst classes. repeat split; assumption.
  - destruct (Scanner.pending st) as [|p0 pend] eqn:Hpend.
    + split; [rewrite Hpend; constructor | assumption].
    + destruct (PyStr.startswith _ _).
      * rewrite <- Hpend in Hp.
        split; [now apply pending_justified_next | assumption].
      * split; cbn [Scanner.pending Scanner.entries]; [constructor | assumption].
Qed.

Lemma scan_lines_invariant path lines rest :
  forall done st,
    lines = (done ++ rest)%list ->
    scan_invariant path lines (S (List.length done)) st ->
    Forall (entry_justified path lines)
      (Scanner.entries (Scanner.scan_lines path st (S (List.length done)) rest)).
Proof.
  induction rest as [|l rest IH]; intros done st Hall Hinv; cbn [Scanner.scan_lines].
  - exact (proj2 Hinv).
  - replace (S (S (List.length done))) with (S (List.length (done ++ [l])))
      by (rewrite length_app; cbn [List.length]; lia).
    apply IH.
    + now rewrite <- app_assoc.
    + rewrite length_app. cbn [List.length]. rewrite Nat.add_1_r.
      apply scan_line_invariant; [|assumption].
      cbn [line_no]. subst lines. rewrite nth_error_app2 by lia.
      now rewrite Nat.sub_diag.
Qed.

Lemma scan_file_justified path text e :
  In e (Scanner.scan_file path (Some text)) ->
  entry_justified path (PyStr.splitlines text) e.
Proof.
  cbn [Scanner.scan_file]. intros Hin.
  pose proof (scan_lines_invariant path (PyStr.splitlines text) (PyStr.splitlines text)
                [] (Scanner.mkScan [] []) eq_refl) as H.
  cbn [List.length] in H. rewrite Forall_forall in H. apply H; [|assumption].
  split; constructor.
Qed.

(** X3. Every entry [scan_file] returns is backed by the text: its line
    number is that of an annotation line of the entry's kind which lists
    the entry's class, a later line declares the entry's method and gives
    its signature, and the entry carries the scanned path and no
    [relpath] or [mod] yet. *)
Theorem scan_file_entries_justified path text e :
  In e (Scanner.scan_file path (Some text)) ->
  entry_justified path (PyStr.splitlines text) e.
Proof. apply scan_file_justified. Qed.

Lemma scan_file_entries_justified_witness :
  entry_justified "a.reds" (PyStr.splitlines bar_replace_wrap)
    (mkOccurrence wrapMethod "Foo" "Bar" "func Bar(a: Int32) -> Int32 {" "a.reds" 4
       None None).
Proof.
  apply (scan_file_entries_justified "a.reds" bar_replace_wrap).
  vm_compute. right. left. reflexivity.
Defined.

(** ** Class lists *)

Lemma rstrip_idempotent s : PyStr.rstrip (PyStr.rstrip s) = PyStr.rstrip s.
Proof.
  induction s as [|c s IH]; cbn [PyStr.rstrip]; [reflexivity|].
  destruct (PyStr.rstrip s) as [|c' r'] eqn:E.
  - destruct (PyStr.isspace c) eqn:Ec; cbn [PyStr.rstrip]; [reflexivity|].
    now rewrite Ec.
  - change (PyStr.rstrip (String c (String c' r')))
      with (match PyStr.rstrip (String c' r') with
            | EmptyString =>
                if PyStr.isspace c then EmptyString else String c EmptyString
            | String a b => String c (String a b)
            end).
    now rewrite IH.
Qed.

Lemma lstrip_idempotent s : PyStr.lstrip (PyStr.lstrip s) = PyStr.lstrip s.
Proof.
  induction s as [|c s IH]; cbn [PyStr.lstrip]; [reflexivity|].
  destruct (PyStr.isspace c) eqn:Ec; [assumption|].
  cbn [PyStr.lstrip]. now rewrite Ec.
Qed.

Lemma rstrip_lstrip s : PyStr.rstrip s = s -> PyStr.rstrip (PyStr.lstrip s) = PyStr.lstrip s.
Proof.
  induction s as [|c s IH]; cbn [PyStr.lstrip]; [reflexivity|]. intros H.
  destruct (PyStr.isspace c) eqn:Ec; [|assumption].
  apply IH. cbn [PyStr.rstrip] in H. rewrite Ec in H.
  destruct (PyStr.rstrip s); [discriminate | now injection H].
Qed.

Lemma strip_trimmed s : trimmed (PyStr.strip s).
Proof.
  unfold trimmed, PyStr.strip. split.
  - apply lstrip_idempotent.
  - apply rstrip_lstrip, rstrip_idempotent.
Qed.

(** X4. The class list of an annotation is never empty, its names carry no
    white space at either end, and for [replaceGlobal] it is the single
    name [<global>] whatever the parentheses hold. *)
Theorem classes_of_shape ann group2 :
  Scanner.classes_of ann group2 <> []
  /\ Forall trimmed (Scanner.classes_of ann group2)
  /\ Scanner.classes_of replaceGlobal group2 = ["<global>"]
  /\ Scanner.classes_of ann "" = [match ann with
                                  | replaceGlobal => "<global>"
                                  | _ => "<unknown>"
                                  end].
Proof.
  assert (Hmap : Forall trimmed (map PyStr.strip (PyStr.split_char ","%char group2))).
  { apply Forall_forall. intros c Hc. apply in_map_iff in Hc as (x & <- & _).
    apply strip_trimmed. }
  assert (Hne : map PyStr.strip (PyStr.split_char ","%char group2) <> []).
  { destruct group2 as [|c r]; cbn [PyStr.split_char]; [discriminate|].
    destruct (Ascii.eqb c ","%char); [discriminate|].
    destruct (PyStr.split_char ","%char r); discriminate. }
  unfold Scanner.classes_of.
  repeat split.
  - destruct ann, (group2 =? "")%string; try discriminate;
      destruct (map PyStr.strip _); try discriminate; now contradiction Hne.
  - destruct ann, (group2 =? "")%string;
      try (repeat constructor; reflexivity);
      destruct (map PyStr.strip _) eqn:E; try assumption; now contradiction Hne.
  - destruct ann; reflexivity.
Qed.

(** ** Report builder: further properties *)

Lemma wrap_for_key resolve root files c m :
  let r := build_report resolve root files in
  wrap_coexistence_for c m r
  = wrap_coexistence_of ((c, m), dd_value key2_eqb no_kinds (c, m)
                                   (group_by_cm (group_by_key (entries r)))).
Proof.
  cbn zeta. unfold wrap_coexistence_for, build_report.
  cbn [wrap_coexistence entries].
  apply (dd_select key2_eqb no_kinds key2_eqb_eq wrap_coexistence_of
           (fun g => (wc_class g, wc_method g))).
  - apply group_by_cm_NoDup.
  - intros [c1 m1] v x. unfold wrap_coexistence_of.
    destruct (_ && _); cbn [In]; [|tauto]. intros [<-|[]]. reflexivity.
  - reflexivity.
Qed.

(** X5. Wrap coexistence threshold: a class and method has a group in
    [wrap_coexistence] exactly when its [wrapMethod] occurrences come from
    two or more files; the group is then unique and its [wrap_count] is the
    number of occurrences, not of files. *)
Theorem wrap_coexistence_threshold resolve root files c m :
  let r := build_report resolve root files in
  let occs := occurrences_of wrapMethod c m (entries r) in
  (distinct_count occ_file occs <= 1 -> wrap_coexistence_for c m r = [])
  /\ (2 <= distinct_count occ_file occs ->
      exists g,
        wrap_coexistence_for c m r = [g]
        /\ wc_wrap_count g = List.length occs
        /\ wc_occurrences g = occs).
Proof.
  cbn zeta. rewrite wrap_for_key. unfold wrap_coexistence_of.
  rewrite (bucket_spec wrapMethod c m). split.
  - intros Hle. destruct (Nat.ltb_spec 1 (distinct_count occ_file
                            (occurrences_of wrapMethod c m
                               (entries (build_report resolve root files)))));
      [lia | now rewrite andb_false_r].
  - intros Hge.
    destruct (occurrences_of wrapMethod c m _) as [|e occs] eqn:E;
      [rewrite distinct_count_nil in Hge; lia|].
    cbn [nonempty andb].
    destruct (Nat.ltb_spec 1 (distinct_count occ_file (e :: occs))); [|lia].
    eexists. repeat split.
Qed.

Lemma wrap_coexistence_threshold_witness :
  wrap_coexistence_for "Foo" "Bar"
    (build_report same_path "/proj" [("/proj/A/bar.reds", Some bar_replace_wrap)]) = []
  /\ exists g,
       wrap_coexistence_for "Foo" "Bar"
         (build_report same_path "/proj"
            [("/proj/A/bar.reds", Some bar_replace_wrap);
             ("/proj/B/bar.reds", Some bar_replace_wrap)]) = [g]
       /\ wc_wrap_count g = 2
       /\ wc_occurrences g
          = occurrences_of wrapMethod "Foo" "Bar"
              (entries (build_report same_path "/proj"
                          [("/proj/A/bar.reds", Some bar_replace_wrap);
                           ("/proj/B/bar.reds", Some bar_replace_wrap)])).
Proof.
  split.
  - apply (proj1 (wrap_coexistence_threshold same_path "/proj"
                    [("/proj/A/bar.reds", Some bar_replace_wrap)] "Foo" "Bar")).
    vm_compute. lia.
  - apply (proj2 (wrap_coexistence_threshold same_path "/proj"
                    [("/proj/A/bar.reds", Some bar_replace_wrap);
                     ("/proj/B/bar.reds", Some bar_replace_wrap)] "Foo" "Bar")).
    vm_compute. lia.
Defined.

Lemma dd_value_In {K V : Type} (keq : K -> K -> bool) (dflt : V)
    (keq_eq : forall a b, keq a b = true <-> a = b) k v (d : list (K * V)) :
  NoDup (map fst d) -> In (k, v) d -> dd_value keq dflt k d = v.
Proof.
  unfold dd_value.
  induction d as [|[k1 v1] r IH]; cbn [map fst In dd_lookup]; intros Hnd Hin; [tauto|].
  inversion Hnd as [|? ? Hnotin Hnd']; subst.
  destruct Hin as [[= -> ->]|Hin].
  - now rewrite (keq_refl keq keq_eq).
  - rewrite (keq_neq keq keq_eq); [now apply IH|].
    intros ->. apply Hnotin. apply (in_map fst) in Hin. exact Hin.
Qed.

Lemma by_cm_item resolve root files c m k :
  In ((c, m), k) (group_by_cm (group_by_key (entries (build_report resolve root files)))) ->
  forall a, kind_sel a k = occurrences_of a c m (entries (build_report resolve root files)).
Proof.
  intros Hin a. rewrite <- bucket_spec. f_equal. symmetry.
  apply (dd_value_In key2_eqb no_kinds key2_eqb_eq); [apply group_by_cm_NoDup | exact Hin].
Qed.

Lemma insert_sorted_length x l : List.length (insert_sorted x l) = S (List.length l).
Proof.
  induction l as [|y l IH]; cbn [insert_sorted]; [reflexivity|].
  destruct (String.ltb y x); cbn [List.length]; now rewrite ?IH.
Qed.

Lemma py_sorted_length l : List.length (py_sorted l) = List.length l.
Proof.
  induction l as [|x l IH]; cbn [py_sorted fold_right]; [reflexivity|].
  fold (py_sorted l). now rewrite insert_sorted_length, IH.
Qed.

Lemma nodup_length_le (l : list string) :
  List.length (nodup string_dec l) <= List.length l.
Proof.
  induction l as [|x l IH]; cbn [nodup List.length]; [lia|].
  destruct (in_dec string_dec x l); cbn [List.length]; lia.
Qed.

Lemma nodup_nonempty (l : list string) : l <> [] -> nodup string_dec l <> [].
Proof.
  intros Hne Hnil. destruct l as [|x l]; [contradiction|].
  assert (Hin : In x (nodup string_dec (x :: l))) by (apply nodup_In; now left).
  rewrite Hnil in Hin. exact Hin.
Qed.

Lemma sorted_set_bounds {A : Type} (f : A -> string) (l : list A) :
  l <> [] -> 1 <= List.length (sorted_set f l) <= List.length l.
Proof.
  intros Hne. unfold sorted_set. rewrite py_sorted_length. split.
  - assert (H : nodup string_dec (map f l) <> [])
      by (apply nodup_nonempty; destruct l; [contradiction | discriminate]).
    destruct (nodup string_dec (map f l)); [contradiction | cbn; lia].
  - rewrite <- (length_map f l). apply nodup_length_le.
Qed.

Lemma distinct_count_le {A : Type} (f : A -> string) (l : list A) :
  distinct_count f l <= List.length l.
Proof.
  unfold distinct_count. rewrite <- (length_map f l). apply nodup_length_le.
Qed.

(** X6. What a group holds.  The occurrences of a conflict group are the
    [replaceMethod] entries of its class and method, in scan order, and
    nothing else (no [wrapMethod], no [replaceGlobal] entry); they come
    from at least two files, [count] is their number, and the group names
    at least one mod and at most [count].  The same holds for a wrap
    coexistence group with [wrapMethod]. *)
Theorem group_contents resolve root files :
  let r := build_report resolve root files in
  (forall g, In g (conflicts r) ->
     cg_occurrences g
     = occurrences_of replaceMethod (cg_class g) (cg_method g) (entries r)
     /\ cg_count g = List.length (cg_occurrences g)
     /\ 2 <= distinct_count occ_file (cg_occurrences g) <= cg_count g
     /\ 1 <= List.length (cg_mods g) <= cg_count g)
  /\ (forall g, In g (wrap_coexistence r) ->
        wc_occurrences g
        = occurrences_of wrapMethod (wc_class g) (wc_method g) (entries r)
        /\ wc_wrap_count g = List.length (wc_occurrences g)
        /\ 2 <= distinct_count occ_file (wc_occurrences g) <= wc_wrap_count g
        /\ 1 <= List.length (wc_mods g) <= wc_wrap_count g).
Proof.
  cbn zeta. split; intros g Hg.
  - unfold build_report in Hg. cbn [conflicts] in Hg.
    apply in_flat_map in Hg as ([[c m] k] & Hitem & Hg).
    pose proof (by_cm_item resolve root files c m k Hitem replaceMethod) as Hk.
    cbn [kind_sel] in Hk. unfold conflict_of in Hg.
    destruct (k_replace k) as [|e0 occs] eqn:Ek; [cbn in Hg; tauto|].
    cbn [nonempty andb] in Hg.
    destruct (Nat.ltb_spec 1 (distinct_count occ_file (e0 :: occs))) as [Hlt|];
      [|cbn in Hg; tauto].
    destruct Hg as [<-|[]]. cbn [cg_occurrences cg_count cg_class cg_method cg_mods].
    split; [exact Hk|]. split; [reflexivity|].
    split; [split; [lia | apply distinct_count_le]|].
    apply sorted_set_bounds. discriminate.
  - unfold build_report in Hg. cbn [wrap_coexistence] in Hg.
    apply in_flat_map in Hg as ([[c m] k] & Hitem & Hg).
    pose proof (by_cm_item resolve root files c m k Hitem wrapMethod) as Hk.
    cbn [kind_sel] in Hk. unfold wrap_coexistence_of in Hg.
    destruct (k_wrap k) as [|e0 occs] eqn:Ek; [cbn in Hg; tauto|].
    cbn [nonempty andb] in Hg.
    destruct (Nat.ltb_spec 1 (distinct_count occ_file (e0 :: occs))) as [Hlt|];
      [|cbn in Hg; tauto].
    destruct Hg as [<-|[]].
    cbn [wc_occurrences wc_wrap_count wc_class wc_method wc_mods].
    split; [exact Hk|]. split; [reflexivity|].
    split; [split; [lia | apply distinct_count_le]|].
    apply sorted_set_bounds. discriminate.
Qed.

Lemma group_contents_witness :
  let r := build_report same_path "/proj" two_mods in
  let g := first_conflict r in
  cg_occurrences g = occurrences_of replaceMethod (cg_class g) (cg_method g) (entries r)
  /\ cg_count g = List.length (cg_occurrences g)
  /\ 2 <= distinct_count occ_file (cg_occurrences g) <= cg_count g
  /\ 1 <= List.length (cg_mods g) <= cg_count g.
Proof.
  apply (proj1 (group_contents same_path "/proj" two_mods)).
  vm_compute. left. reflexivity.
Defined.

Lemma count_annotations_fold es :
  forall d a,
    dd_value annotation_eqb 0 a
      (fold_left (fun d e => dd_update annotation_eqb 0 (occ_annotation e) S d) es d)
    = dd_value annotation_eqb 0 a d + count_of a es.
Proof.
  unfold count_of.
  induction es as [|e es IH]; intros d a; cbn [fold_left filter List.length]; [lia|].
  rewrite IH, (dd_value_update annotation_eqb 0 annotation_eqb_eq).
  destruct (annotation_eqb (occ_annotation e) a) eqn:E; cbn [List.length]; [|lia].
  apply annotation_eqb_eq in E. subst a. lia.
Qed.

Lemma count_annotations_keys es :
  forall d a,
    In a (map fst (fold_left (fun d e => dd_update annotation_eqb 0 (occ_annotation e) S d)
                     es d))
    <-> In a (map fst d) \/ exists e, In e es /\ occ_annotation e = a.
Proof.
  induction es as [|e es IH]; intros d a; cbn [fold_left In].
  - split; [auto | intros [H|(e & [] & _)]; exact H].
  - rewrite IH, dd_keys_update by apply annotation_eqb_eq. split.
    + intros [[->|H]|(e' & He' & Ha)]; eauto.
    + intros [H|(e' & [<-|He'] & Ha)]; eauto.
Qed.

Lemma count_of_pos a es : (exists e, In e es /\ occ_annotation e = a) <-> count_of a es <> 0.
Proof.
  unfold count_of. split.
  - intros (e & Hin & Ha) Hz.
    assert (Hf : In e (filter (fun e => annotation_eqb (occ_annotation e) a) es))
      by (apply filter_In; split; [assumption | now apply annotation_eqb_eq]).
    destruct (filter _ es); [exact Hf | discriminate].
  - intros Hnz. destruct (filter _ es) as [|e l] eqn:E; [contradiction|].
    assert (Hf : In e (filter (fun e => annotation_eqb (occ_annotation e) a) es))
      by (rewrite E; now left).
    apply filter_In in Hf as [Hin Ha]. apply annotation_eqb_eq in Ha. eauto.
Qed.

Lemma count_of_total es :
  count_of replaceMethod es + count_of wrapMethod es + count_of replaceGlobal es
  = List.length es.
Proof.
  unfold count_of. induction es as [|e es IH]; [reflexivity|].
  cbn [filter]. destruct (occ_annotation e); simpl; lia.
Qed.

Lemma count_sum_update a d :
  list_sum (map snd (dd_update annotation_eqb 0 a S d)) = S (list_sum (map snd d)).
Proof.
  induction d as [|[a1 n1] d IH]; cbn [dd_update]; [reflexivity|].
  destruct (annotation_eqb a1 a); simpl in *; [lia | rewrite IH; lia].
Qed.

Lemma count_sum_fold es :
  forall d,
    list_sum (map snd (fold_left
      (fun d e => dd_update annotation_eqb 0 (occ_annotation e) S d) es d))
    = list_sum (map snd d) + List.length es.
Proof.
  induction es as [|e es IH]; intros d; cbn [fold_left List.length]; [lia|].
  rewrite IH, count_sum_update. lia.
Qed.

(** X7. [annotation_counts] is a tally of the entries: each annotation
    kind is listed once at most, with the number of entries of that kind,
    a kind without entry is not listed, and the counts add up to the number
    of entries. *)
Theorem annotation_counts_tally resolve root files :
  let r := build_report resolve root files in
  NoDup (map fst (annotation_counts r))
  /\ (forall a n, In (a, n) (annotation_counts r) ->
                  n = count_of a (entries r) /\ n <> 0)
  /\ (forall a, count_of a (entries r) <> 0 ->
                In (a, count_of a (entries r)) (annotation_counts r))
  /\ list_sum (map snd (annotation_counts r)) = List.length (entries r).
Proof.
  cbn zeta. unfold build_report. cbn [annotation_counts entries].
  set (es := map (enrich resolve (resolve root)) _). unfold count_annotations.
  assert (Hnd : NoDup (map fst (fold_left
            (fun d e => dd_update annotation_eqb 0 (occ_annotation e) S d) es [])))
    by (apply (dd_fold_NoDup annotation_eqb 0 annotation_eqb_eq occ_annotation
                 (fun _ => S)); constructor).
  assert (Hval : forall a n,
             In (a, n) (fold_left
               (fun d e => dd_update annotation_eqb 0 (occ_annotation e) S d) es []) ->
             n = count_of a es).
  { intros a n Hin.
    rewrite <- (dd_value_In annotation_eqb 0 annotation_eqb_eq a n _ Hnd Hin).
    now rewrite count_annotations_fold. }
  assert (Hkey : forall a,
             In a (map fst (fold_left
               (fun d e => dd_update annotation_eqb 0 (occ_annotation e) S d) es []))
             <-> count_of a es <> 0).
  { intros a. rewrite count_annotations_keys, <- count_of_pos. cbn [map In]. tauto. }
  split; [exact Hnd|]. split; [|split].
  - intros a n Hin. split; [now apply Hval|].
    rewrite (Hval a n Hin). apply Hkey. apply (in_map fst) in Hin. exact Hin.
  - intros a Hnz. apply Hkey in Hnz. apply in_map_iff in Hnz as ([a' n] & Ha & Hin).
    cbn [fst] in Ha. subst a'. now rewrite <- (Hval a n Hin).
  - now rewrite count_sum_fold.
Qed.

Definition one_of_each : list (string * option string) :=
  [("/proj/A/x.reds", Some "@replaceGlobal()
func Log()
@wrapMethod(Foo)
func Bar()
@wrapMethod(Foo)
func Baz()")].

Lemma annotation_counts_tally_witness :
  2 = count_of wrapMethod (entries (build_report same_path "/proj" one_of_each))
  /\ 2 <> 0.
Proof.
  apply (proj1 (proj2 (annotation_counts_tally same_path "/proj" one_of_each))).
  vm_compute. right. left. reflexivity.
Defined.

(** X8. Every entry of a report comes from a file of the scan that could
    be read: it is an entry the scanner justifies by the text of that file,
    with the [relpath] and [mod] keys filled in and nothing else changed;
    a report has one entry for each entry the scanner returns. *)
Theorem report_entries_provenance resolve root files :
  let r := build_report resolve root files in
  (forall e, In e (entries r) ->
     exists text e0 rel m,
       In (occ_file e, Some text) files
       /\ entry_justified (occ_file e) (PyStr.splitlines text) e0
       /\ e = mkOccurrence (occ_annotation e0) (occ_class e0) (occ_method e0)
                (occ_func_sig e0) (occ_file e0) (occ_line e0) (Some rel) (Some m))
  /\ List.length (entries r)
     = list_sum (map (fun f => List.length (Scanner.scan_file (fst f) (snd f))) files).
Proof.
  cbn zeta. unfold build_report. cbn [entries]. split.
  - intros e Hin. apply in_map_iff in Hin as (e0 & <- & Hin).
    apply in_flat_map in Hin as ([path [text|]] & Hf & Hin); cbn [fst snd] in Hin;
      [|destruct Hin].
    pose proof (scan_file_justified path text e0 Hin) as Hj.
    rewrite enrich_file. destruct Hj as (Hfile & Hrest).
    unfold enrich. destruct (relative_to _ _) as [parts|];
      (eexists text, e0, _, _; split; [rewrite Hfile; exact Hf|];
       split; [rewrite Hfile; exact (conj Hfile Hrest) | reflexivity]).
  - rewrite length_map. induction files as [|f files IH]; cbn [flat_map map list_sum];
      [reflexivity|].
    now rewrite length_app, IH.
Qed.

Lemma report_entries_provenance_witness :
  exists text e0 rel m,
    In ("/proj/A/bar.reds", Some text) [("/proj/A/bar.reds", Some bar_replace)]
    /\ entry_justified "/proj/A/bar.reds" (PyStr.splitlines text) e0
    /\ mkOccurrence replaceMethod "Foo" "Bar" "func Bar(a: Int32) -> Int32 {"
         "/proj/A/bar.reds" 1 (Some "A/bar.reds") (Some "A")
       = mkOccurrence (occ_annotation e0) (occ_class e0) (occ_method e0)
           (occ_func_sig e0) (occ_file e0) (occ_line e0) (Some rel) (Some m).
Proof.
  apply (proj1 (report_entries_provenance same_path "/proj"
                  [("/proj/A/bar.reds", Some bar_replace)])
           (mkOccurrence replaceMethod "Foo" "Bar" "func Bar(a: Int32) -> Int32 {"
              "/proj/A/bar.reds" 1 (Some "A/bar.reds") (Some "A"))).
  vm_compute. left. reflexivity.
Defined.

(** *** Mod attribution *)



Lemma index_of_lt x l i : index_of x l = Some i -> i < List.length l.
Proof.
  revert i. induction l as [|p l IH]; cbn [index_of List.length]; intros i;
    [discriminate|].
  destruct (p =? x)%string; [intros [= <-]; lia|].
  destruct (index_of x l) as [j|]; cbn [option_map]; [|discriminate].
  intros [= <-]. specialize (IH j eq_refl). lia.
Qed.







(** X10. The mod of an entry is one of the segments of its relative path,
    or the sentinel [<root>]. *)
Theorem mod_is_segment parts :
  In (mod_of_parts parts) parts \/ mod_of_parts parts = "<root>".
Proof.
  unfold mod_of_parts.
  assert (Hhd : In (match parts with p0 :: _ => p0 | [] => "<root>" end) parts
                \/ match parts with p0 :: _ => p0 | [] => "<root>" end = "<root>")
    by (destruct parts; [now right | left; now left]).
  destruct (index_of "r6" (map PyStr.lower parts)) as [i|].
  - destruct (_ && _ && (i + 2 <? List.length parts)) eqn:E.
    + apply andb_true_iff in E as [_ E]. apply Nat.ltb_lt in E.
      left. now apply nth_In.
    + destruct (Nat.ltb_spec (i + 1) (List.length parts)); [|now right].
      left. now apply nth_In.
  - destruct (index_of "scripts" (map PyStr.lower parts)) as [j|]; [|exact Hhd].
    destruct (Nat.ltb_spec (j + 1) (List.length parts)); [|exact Hhd].
    left. now apply nth_In.
Qed.

(** ** Impact scorer: further properties *)

Lemma prefix_spec p : forall s, prefix p s = true <-> exists r, s = (p ++ r)%string.
Proof.
  induction p as [|a p IH]; intros s.
  - destruct s; cbn; split; eauto.
  - destruct s as [|b s]; cbn [prefix].
    + split; [discriminate | intros [r Hr]; discriminate Hr].
    + destruct (ascii_dec a b) as [->|Hne].
      * rewrite IH. split; intros [r Hr]; exists r.
        -- cbn. now f_equal.
        -- cbn in Hr. now injection Hr.
      * split; [discriminate|]. intros [r Hr]. cbn in Hr. injection Hr as -> _.
        contradiction.
Qed.

Lemma contains_spec n : forall h,
  PyStr.contains n h = true <-> exists a b, h = (a ++ n ++ b)%string.
Proof.
  induction h as [|c h IH]; cbn [PyStr.contains]; rewrite orb_true_iff, prefix_spec.
  - split.
    + intros [[r Hr]|H]; [exists EmptyString, r; exact Hr | discriminate].
    + intros (a & b & H). left. destruct a; [eauto | discriminate].
  - rewrite IH. split.
    + intros [[r Hr]|(a & b & H)].
      * exists EmptyString, r. exact Hr.
      * exists (String c a), b. cbn. now f_equal.
    + intros (a & b & H). destruct a as [|c' a].
      * left. exists b. exact H.
      * right. exists a, b. cbn in H. now injection H.
Qed.

Lemma append_assoc (a b c : string) : ((a ++ b) ++ c = a ++ (b ++ c))%string.
Proof. induction a as [|x a IH]; cbn; [reflexivity | now rewrite IH]. Qed.

Lemma contains_inner a n b h :
  PyStr.contains (a ++ n ++ b)%string h = true -> PyStr.contains n h = true.
Proof.
  rewrite !contains_spec. intros (x & y & ->).
  exists (x ++ a)%string, (b ++ y)%string. now rewrite !append_assoc.
Qed.

Lemma classify_codes cls meth : In (classify_conflict_symptom cls meth) symptom_codes.
Proof.
  unfold classify_conflict_symptom, _SYMPTOM_KEYWORDS. cbn [find snd].
  repeat match goal with
         | |- context [if ?b then _ else _] => destruct b
         end; cbn; tauto.
Qed.

(** X11. The symptom of a class is one of seven codes, is read from the
    lowercased class name alone (the method plays no part), and is [uiHud]
    as soon as the name holds [ui], [hud] or [ink]; since [equipment]
    holds [ui], a class named after equipment is filed under [uiHud],
    never under [player]. *)
Theorem classify_symptom_rules cls meth :
  In (classify_conflict_symptom cls meth) symptom_codes
  /\ (forall cls' meth',
        PyStr.lower cls' = PyStr.lower cls ->
        classify_conflict_symptom cls' meth' = classify_conflict_symptom cls meth)
  /\ (PyStr.contains "ui" (PyStr.lower cls) || PyStr.contains "hud" (PyStr.lower cls)
      || PyStr.contains "ink" (PyStr.lower cls) = true ->
      classify_conflict_symptom cls meth = "uiHud")
  /\ (PyStr.contains "equipment" (PyStr.lower cls) = true ->
      classify_conflict_symptom cls meth = "uiHud").
Proof.
  assert (Hui : PyStr.contains "ui" (PyStr.lower cls) || PyStr.contains "hud" (PyStr.lower cls)
                || PyStr.contains "ink" (PyStr.lower cls) = true ->
                classify_conflict_symptom cls meth = "uiHud").
  { intros H. unfold classify_conflict_symptom, _SYMPTOM_KEYWORDS.
    cbn [find snd existsb]. rewrite orb_false_r, orb_assoc, H. reflexivity. }
  split; [apply classify_codes|]. split; [|split; [exact Hui|]].
  - intros cls' meth' H. unfold classify_conflict_symptom. now rewrite H.
  - intros H. apply Hui.
    rewrite (contains_inner "eq" "ui" "pment" _ H). reflexivity.
Qed.

Lemma classify_symptom_rules_witness :
  classify_conflict_symptom "EquipmentSystemPlayerData" "OnEquip" = "uiHud".
Proof.
  apply (proj2 (proj2 (proj2 (classify_symptom_rules "EquipmentSystemPlayerData"
                                "OnEquip")))).
  reflexivity.
Defined.

(** X12. Unless it is the empty fallback, the message of a result holds
    the token [impact.extra.wrapCoexist] exactly when the call was made
    with [wrap_coexist=True], and starts with the symptom key of the
    class. *)
Theorem message_wrap_token candidates cache cls meth mods entries config wrap :
  let r := fst (compute_impact_unified candidates cache cls meth mods entries config wrap) in
  r <> empty_impact ->
  PyStr.contains "impact.extra.wrapCoexist" (message r) = wrap
  /\ prefix ("impact.symptom." ++ classify_conflict_symptom cls meth) (message r) = true.
Proof.
  cbn zeta. unfold compute_impact_unified.
  destruct (effective_config candidates cache config) as [cfg cache']. cbn [fst].
  unfold impact_body.
  destruct (dict_at cfg "weights") as [w|]; cbn [bind]; [|congruence].
  destruct (dict_at cfg "thresholds") as [t|]; cbn [bind]; [|congruence].
  destruct (impact_score w cls meth mods entries wrap) as [s|]; cbn [bind]; [|congruence].
  destruct (severity_of_score t s) as [sev|]; cbn [bind message]; [|congruence].
  intros _.
  pose proof (classify_codes cls meth) as Hc.
  cbn [symptom_codes In] in Hc.
  destruct Hc as [<-|[<-|[<-|[<-|[<-|[<-|[<-|[]]]]]]]]; destruct wrap; split; reflexivity.
Qed.

Lemma message_wrap_token_witness :
  PyStr.contains "impact.extra.wrapCoexist"
    (message (fst (compute_impact_unified [] None "VehicleSystem" "Update" ["A"] []
                     None true))) = true
  /\ prefix ("impact.symptom." ++ classify_conflict_symptom "VehicleSystem" "Update")
       (message (fst (compute_impact_unified [] None "VehicleSystem" "Update" ["A"] []
                        None true))) = true.
Proof.
  apply (message_wrap_token [] None "VehicleSystem" "Update" ["A"] [] None true).
  vm_compute. discriminate.
Defined.

Local Open Scope Z_scope.

Lemma severity_of_score_fallback s :
  severity_of_score (PDict []) s = Ok (fallback_tier s).
Proof.
  unfold severity_of_score, fallback_tier.
  change (int_at (PDict []) "critical" 80) with (Ok (A := Z) 80).
  change (int_at (PDict []) "high" 60) with (Ok (A := Z) 60).
  change (int_at (PDict []) "medium" 40) with (Ok (A := Z) 40).
  cbn [bind].
  destruct (Z.geb_spec s 80), (Z.leb_spec 80 s); try lia; try reflexivity.
  destruct (Z.geb_spec s 60), (Z.leb_spec 60 s); try lia; try reflexivity.
  destruct (Z.geb_spec s 40), (Z.leb_spec 40 s); try lia; reflexivity.
Qed.

Lemma impact_score_no_weights cls meth mods entries wrap :
  impact_score (PDict []) cls meth mods entries wrap = Ok 0.
Proof.
  unfold impact_score.
  cbn [int_at dict_at py_get py_int py_or py_items assoc_get truthy bind keyword_score].
  rewrite !Z.mul_0_l. cbn [Z.add].
  destruct (has_return _), wrap; reflexivity.
Qed.

(** X13. Missing sections fall back key by key, not to the default
    profile: a config without [thresholds] is cut at 80, 60 and 40, and a
    config without [weights] scores every method 0, so that its label is
    the one its thresholds give to 0. *)
Theorem missing_sections_defaults
    candidates cache cls meth mods entries cfg wrap :
  truthy cfg = true ->
  let r := fst (compute_impact_unified candidates cache cls meth mods entries
                  (Some cfg) wrap) in
  (forall weights s,
      dict_at cfg "thresholds" = Ok (PDict []) ->
      dict_at cfg "weights" = Ok weights ->
      impact_score weights cls meth mods entries wrap = Ok s ->
      severity r = fallback_tier s)
  /\ (forall thresholds sev,
        dict_at cfg "weights" = Ok (PDict []) ->
        dict_at cfg "thresholds" = Ok thresholds ->
        severity_of_score thresholds 0 = Ok sev ->
        severity r = sev).
Proof.
  intros Ht. cbn zeta. unfold compute_impact_unified, effective_config. rewrite Ht.
  cbn [fst]. unfold impact_body. split.
  - intros weights s -> -> Hs. cbn [bind]. rewrite Hs. cbn [bind].
    now rewrite severity_of_score_fallback.
  - intros thresholds sev -> -> Hsev. cbn [bind].
    rewrite impact_score_no_weights. cbn [bind]. now rewrite Hsev.
Qed.

Lemma missing_sections_defaults_witness :
  severity (fst (compute_impact_unified [] None "VehicleSystem" "Update"
                   ["A"; "B"; "C"; "D"; "E"] [] (Some (PDict [("thresholds", default_thresholds)]))
                   true)) = "Low".
Proof.
  apply (proj2 (missing_sections_defaults [] None "VehicleSystem" "Update"
                  ["A"; "B"; "C"; "D"; "E"] []
                  (PDict [("thresholds", default_thresholds)]) true eq_refl)
           default_thresholds "Low"); reflexivity.
Defined.

Lemma keyword_score_sum items text :
  Forall int_valued items ->
  forall score, keyword_score items text score = Ok (score + keyword_sum items text).
Proof.
  induction 1 as [|[kw w] rest [z Hz] _ IH]; intros score;
    cbn [keyword_score keyword_sum].
  - now rewrite Z.add_0_r.
  - cbn [snd] in Hz. subst w.
    destruct (PyStr.contains kw text); cbn [py_int bind]; rewrite IH; f_equal; lia.
Qed.

(** X14. The score is a sum.  When the weights are integers, the score is
    [per_mod] times the number of distinct mods, plus the weight of every
    class keyword found in the lowercased class name, plus the weight of
    every method keyword found in the lowercased method name, plus
    [per_arg] times [args_count] of the first signature (the non-blank
    comma-separated pieces of its first parenthesised group), plus the
    [has_return] weight when [has_return] holds of that signature (the
    text after its first arrow, stripped, is neither empty nor the word
    void in any letter case; the text [Void {] of a stored declaration
    line passes), plus the wrap bonus when asked. *)
Theorem score_formula weights cls meth mods entries wrap
    per_mod ckw mkw sig_w per_arg has_ret bonus :
  int_at weights "per_mod" 0 = Ok per_mod ->
  dict_at weights "class_keywords" = Ok (PDict ckw) -> Forall int_valued ckw ->
  dict_at weights "method_keywords" = Ok (PDict mkw) -> Forall int_valued mkw ->
  dict_at weights "signature" = Ok sig_w ->
  int_at sig_w "per_arg" 0 = Ok per_arg ->
  int_at sig_w "has_return" 0 = Ok has_ret ->
  (wrap = true -> int_at weights "wrap_coexist_bonus" 0 = Ok bonus) ->
  impact_score weights cls meth mods entries wrap
  = Ok (per_mod * Z.of_nat (List.length (nodup string_dec mods))
        + keyword_sum ckw (PyStr.lower cls)
        + keyword_sum mkw (PyStr.lower meth)
        + per_arg * args_count (first_sig entries)
        + (if has_return (first_sig entries) then has_ret else 0)
        + (if wrap then bonus else 0)).
Proof.
  intros Hpm Hc Hci Hm Hmi Hs Hpa Hhr Hb. unfold impact_score.
  rewrite Hpm, Hc. cbn [bind py_items]. rewrite (keyword_score_sum ckw _ Hci).
  cbn [bind]. rewrite Hm. cbn [bind py_items]. rewrite (keyword_score_sum mkw _ Hmi).
  cbn [bind]. rewrite Hs. cbn [bind]. rewrite Hpa, Hhr. cbn [bind].
  fold (first_sig entries).
  destruct wrap; [rewrite (Hb eq_refl); cbn [bind]|];
    destruct (has_return (first_sig entries)); f_equal; lia.
Qed.

Lemma score_formula_witness :
  impact_score default_weights "PlayerStatusUIController" "UpdatePlayer"
    ["ModA"; "ModB"] [sample_entry] true
  = Ok (10 * Z.of_nat (List.length (nodup string_dec ["ModA"; "ModB"]))
        + keyword_sum
            [ ("vehicle", PInt 15); ("quest", PInt 12); ("player", PInt 12);
              ("inventory", PInt 10); ("damage", PInt 10); ("ui", PInt 8);
              ("hud", PInt 8); ("ink", PInt 6) ]
            (PyStr.lower "PlayerStatusUIController")
        + keyword_sum
            [ ("update", PInt 12); ("tick", PInt 12); ("initialize", PInt 10);
              ("init", PInt 10); ("onattach", PInt 8); ("onunattach", PInt 6);
              ("refresh", PInt 8); ("calculate", PInt 8); ("resolve", PInt 8) ]
            (PyStr.lower "UpdatePlayer")
        + 3 * args_count (first_sig [sample_entry])
        + (if has_return (first_sig [sample_entry]) then 6 else 0)
        + (if true then 12 else 0)).
Proof.
  apply (score_formula default_weights "PlayerStatusUIController" "UpdatePlayer"
           ["ModA"; "ModB"] [sample_entry] true 10 _ _
           (PDict [("per_arg", PInt 3); ("has_return", PInt 6)]) 3 6 12);
    try reflexivity; repeat constructor; eexists; reflexivity.
Defined.

Lemma nodup_length_same_set (l l' : list string) :
  (forall x, In x l <-> In x l') ->
  List.length (nodup string_dec l) = List.length (nodup string_dec l').
Proof.
  intros H. apply Nat.le_antisymm;
    (apply NoDup_incl_length; [apply NoDup_nodup|]);
    intros x Hx; apply nodup_In; apply nodup_In in Hx; now apply H.
Qed.

(** X15. What the result depends on: the class and method names up to
    case, the set of mods (neither their order nor repetitions), and the
    signature of the first occurrence only. *)
Theorem impact_depends_on candidates cache config wrap
    cls cls' meth meth' mods mods' entries entries' :
  PyStr.lower cls = PyStr.lower cls' ->
  PyStr.lower meth = PyStr.lower meth' ->
  (forall m, In m mods <-> In m mods') ->
  first_sig entries = first_sig entries' ->
  compute_impact_unified candidates cache cls meth mods entries config wrap
  = compute_impact_unified candidates cache cls' meth' mods' entries' config wrap.
Proof.
  intros Hc Hm Hmods Hsig.
  unfold compute_impact_unified, impact_body, impact_score, classify_conflict_symptom.
  fold (first_sig entries). fold (first_sig entries').
  now rewrite Hc, Hm, Hsig, (nodup_length_same_set mods mods' Hmods).
Qed.

Lemma impact_depends_on_witness :
  compute_impact_unified [] None "playerPuppet" "OnUpdate" ["B"; "A"; "B"]
    [sample_entry; sig_entry "func Other()"] None true
  = compute_impact_unified [] None "PLAYERPUPPET" "onupdate" ["A"; "B"]
      [sample_entry] None true.
Proof.
  apply impact_depends_on; try reflexivity.
  intros m. cbn [In]. tauto.
Defined.

Local Close Scope Z_scope.

Lemma first_profile_found candidates d :
  first_profile candidates = Some d ->
  is_profile d = true
  /\ exists before after,
       candidates = (before ++ Some d :: after)%list /\ Forall no_profile before.
Proof.
  induction candidates as [|[data|] rest IH]; cbn [first_profile]; [discriminate| |].
  - destruct (is_profile data) eqn:E.
    + intros [= ->]. split; [assumption|]. exists [], rest. split; [reflexivity|constructor].
    + intros H. destruct (IH H) as (Hp & before & after & -> & Hb).
      split; [assumption|]. exists (Some data :: before), after.
      split; [reflexivity|]. constructor; assumption.
  - intros H. destruct (IH H) as (Hp & before & after & -> & Hb).
    split; [assumption|]. exists (None :: before), after.
    split; [reflexivity|]. constructor; [exact I | assumption].
Qed.

Lemma first_profile_none candidates :
  first_profile candidates = None <-> Forall no_profile candidates.
Proof.
  induction candidates as [|[data|] rest IH]; cbn [first_profile].
  - split; [constructor | reflexivity].
  - destruct (is_profile data) eqn:E.
    + split; [discriminate|]. intros H. inversion H as [|? ? Hd _]; subst.
      cbn in Hd. congruence.
    + rewrite IH. split; [now constructor | intros H; now inversion H].
  - rewrite IH. split; [now constructor | intros H; now inversion H].
Qed.

Lemma is_profile_truthy d : is_profile d = true -> truthy d = true.
Proof.
  destruct d as [| | | | |kv|f]; cbn; try discriminate.
  destruct kv; [discriminate | reflexivity].
Qed.

(** X16. The default profile.  With an empty cache the scorer takes the
    first candidate file that parses to a dict holding both [thresholds]
    and [weights], skipping every file before it, and remembers it; when
    no candidate qualifies it takes the embedded profile and remembers
    nothing, so that the files are looked at again on the next call; a
    remembered profile is returned whatever the files hold by then. *)
Theorem default_profile_selection candidates :
  (forall d,
      first_profile candidates = Some d ->
      get_default_impact_config candidates None = (d, Some d)
      /\ is_profile d = true
      /\ exists before after,
           candidates = (before ++ Some d :: after)%list /\ Forall no_profile before)
  /\ (Forall no_profile candidates ->
      get_default_impact_config candidates None = (_IMPACT_DEFAULT_CONFIG, None))
  /\ (forall d,
        is_profile d = true ->
        get_default_impact_config candidates (Some d) = (d, Some d)).
Proof.
  unfold get_default_impact_config, _load_external_default. repeat split.
  - rewrite H. unfold py_or.
    now rewrite (is_profile_truthy d (proj1 (first_profile_found _ _ H))).
  - exact (proj1 (first_profile_found _ _ H)).
  - exact (proj2 (first_profile_found _ _ H)).
  - intros H. apply first_profile_none in H. now rewrite H.
  - intros d H. unfold py_or. now rewrite (is_profile_truthy d H).
Qed.

Lemma default_profile_selection_witness :
  get_default_impact_config
    [None; Some (PDict [("weights", PDict [])]); Some late_profile; Some _IMPACT_DEFAULT_CONFIG]
    None = (late_profile, Some late_profile)
  /\ is_profile late_profile = true
  /\ exists before after,
       [None; Some (PDict [("weights", PDict [])]); Some late_profile;
        Some _IMPACT_DEFAULT_CONFIG]
       = (before ++ Some late_profile :: after)%list
       /\ Forall no_profile before.
Proof.
  apply (proj1 (default_profile_selection
                  [None; Some (PDict [("weights", PDict [])]); Some late_profile;
                   Some _IMPACT_DEFAULT_CONFIG]) late_profile).
  reflexivity.
Defined.

(** ** Helpers of the renderers *)

Lemma existsb_filter {A : Type} (f : A -> bool) (l : list A) :
  existsb f l = nonempty (filter f l).
Proof.
  induction l as [|x l IH]; cbn [existsb filter]; [reflexivity|].
  destruct (f x); [reflexivity | exact IH].
Qed.

(** X17. On a report of [build_report], [method_has_wrap] answers whether
    the class and method has a [wrapMethod] occurrence that either shares
    the key with a [replaceMethod] occurrence or has a second one in
    another file; a method wrapped in one file only, and never replaced,
    has no wrap for the renderers. *)
Theorem method_has_wrap_on_report resolve root files c m :
  let r := build_report resolve root files in
  let repl := occurrences_of replaceMethod c m (entries r) in
  let wrap := occurrences_of wrapMethod c m (entries r) in
  Util.method_has_wrap r c m
  = nonempty wrap && ((1 <? distinct_count occ_file wrap) || nonempty repl).
Proof.
  cbn zeta. unfold Util.method_has_wrap.
  rewrite !existsb_filter.
  change (filter _ (wrap_coexistence (build_report resolve root files)))
    with (wrap_coexistence_for c m (build_report resolve root files)).
  change (filter _ (replace_wrap_coexistence (build_report resolve root files)))
    with (replace_wrap_for c m (build_report resolve root files)).
  rewrite wrap_for_key, replace_wrap_for_key.
  unfold wrap_coexistence_of, replace_wrap_of.
  rewrite (bucket_spec replaceMethod c m), (bucket_spec wrapMethod c m).
  destruct (occurrences_of wrapMethod c m _) as [|w ws];
    destruct (occurrences_of replaceMethod c m _) as [|p ps]; cbn [nonempty andb orb];
    try reflexivity;
    destruct (1 <? distinct_count occ_file (w :: ws)); reflexivity.
Qed.

Lemma lower_char_not_upper c : is_upper (PyStr.lower_char c) = false.
Proof. destruct c as [[] [] [] [] [] [] [] []]; reflexivity. Qed.

Lemma anchor_char_safe c : is_upper c = false -> Util.anchor_char c = true -> safe_char c = true.
Proof. destruct c as [[] [] [] [] [] [] [] []]; vm_compute; congruence. Qed.

Lemma all_chars_append p a b :
  all_chars p (a ++ b)%string = all_chars p a && all_chars p b.
Proof.
  induction a as [|c a IH]; cbn [String.append all_chars]; [reflexivity|].
  now rewrite IH, andb_assoc.
Qed.

Lemma lower_no_upper s : all_chars (fun c => negb (is_upper c)) (PyStr.lower s) = true.
Proof.
  induction s as [|c s IH]; cbn [PyStr.lower all_chars]; [reflexivity|].
  now rewrite lower_char_not_upper, IH.
Qed.

Lemma replace_space_no_upper s :
  all_chars (fun c => negb (is_upper c)) s = true ->
  all_chars (fun c => negb (is_upper c)) (Util.replace_char " "%char "-"%char s) = true.
Proof.
  induction s as [|c s IH]; cbn [Util.replace_char all_chars]; [reflexivity|].
  rewrite !andb_true_iff. intros [Hc Hs]. split; [|now apply IH].
  destruct (Ascii.eqb c " "%char); [reflexivity | exact Hc].
Qed.

Lemma filter_anchor_safe s :
  all_chars (fun c => negb (is_upper c)) s = true ->
  all_chars safe_char (Util.filter_chars Util.anchor_char s) = true.
Proof.
  induction s as [|c s IH]; cbn [Util.filter_chars all_chars]; [reflexivity|].
  rewrite andb_true_iff, negb_true_iff. intros [Hc Hs].
  destruct (Util.anchor_char c) eqn:E; [|now apply IH].
  cbn [all_chars]. now rewrite (anchor_char_safe c Hc E), IH.
Qed.

Lemma uint_digits d : all_chars PyStr.is_digit (NilEmpty.string_of_uint d) = true.
Proof. induction d; cbn [NilEmpty.string_of_uint all_chars]; try reflexivity; exact IHd. Qed.

Lemma digit_safe s : all_chars PyStr.is_digit s = true -> all_chars safe_char s = true.
Proof.
  induction s as [|c s IH]; cbn [all_chars]; [reflexivity|].
  rewrite !andb_true_iff. intros [Hc Hs]. split; [|now apply IH].
  unfold safe_char. rewrite Hc. now rewrite orb_true_r.
Qed.

Lemma str_of_int_safe i : all_chars safe_char (Util.str_of_int i) = true.
Proof.
  unfold Util.str_of_int, NilZero.string_of_int.
  destruct (Z.to_int i) as [d|d]; unfold NilZero.string_of_uint.
  - destruct d; try reflexivity; apply digit_safe, (uint_digits (_ d)).
  - cbn [all_chars]. destruct d; try reflexivity; apply digit_safe, (uint_digits (_ d)).
Qed.

(** X18. An anchor id starts with [conf-] and holds only lower case
    letters, digits, dashes, underscores and dots, whatever the class and
    method names hold (upper case, blanks, brackets, quotes). *)
Theorem conflict_anchor_safe idx cls meth :
  prefix "conf-" (Util.make_conflict_anchor idx cls meth) = true
  /\ all_chars safe_char (Util.make_conflict_anchor idx cls meth) = true.
Proof.
  assert (Hbase : all_chars safe_char
            (Util.filter_chars Util.anchor_char
               (Util.replace_char " "%char "-"%char (PyStr.lower (cls ++ "-" ++ meth))))
            = true)
    by apply filter_anchor_safe, replace_space_no_upper, lower_no_upper.
  unfold Util.make_conflict_anchor. destruct idx as [i|].
  - split; [apply prefix_spec; eexists; reflexivity|].
    change ("conf-" ++ Util.str_of_int i ++ "-" ++ _)%string
      with ("conf-" ++ (Util.str_of_int i ++ ("-" ++
              Util.filter_chars Util.anchor_char
                (Util.replace_char " "%char "-"%char (PyStr.lower (cls ++ "-" ++ meth))))))%string.
    rewrite !all_chars_append, str_of_int_safe, Hbase. reflexivity.
  - split; [apply prefix_spec; eexists; reflexivity|].
    rewrite all_chars_append, Hbase. reflexivity.
Qed.

Lemma str_lt_asym a b : String.ltb a b = true -> String.ltb b a = false.
Proof.
  intros H. destruct (String.ltb b a) eqn:E; [|reflexivity].
  exfalso. exact (str_lt_irrefl a (str_lt_trans a b a H E)).
Qed.

Lemma key_lt_asym a b : Sections.key_lt a b = true -> Sections.key_lt b a = false.
Proof.
  destruct a as [a1 a2], b as [b1 b2]. unfold Sections.key_lt. cbn [fst snd].
  rewrite orb_true_iff, andb_true_iff, String.eqb_eq. intros [H|[Heq H]]; [|subst b1].
  - rewrite (str_lt_asym _ _ H). cbn [orb].
    destruct (String.eqb_spec b1 a1) as [->|_]; [|reflexivity].
    exfalso. exact (str_lt_irrefl a1 H).
  - rewrite (str_lt_asym _ _ H), andb_false_r, orb_false_r.
    destruct (String.ltb a1 a1) eqn:E; [|reflexivity].
    exfalso. exact (str_lt_irrefl a1 E).
Qed.

Section SortedByFacts.
Context {A : Type} (key : A -> string * string).

Lemma insert_by_perm x l : Permutation (x :: l) (Sections.insert_by key x l).
Proof.
  induction l as [|y l IH]; cbn [Sections.insert_by]; [reflexivity|].
  destruct (Sections.key_lt (key y) (key x)); [|reflexivity].
  rewrite perm_swap. now constructor.
Qed.

Lemma sorted_by_perm l : Permutation l (Sections.sorted_by key l).
Proof.
  induction l as [|x l IH]; cbn [Sections.sorted_by fold_right]; [constructor|].
  fold (Sections.sorted_by key l). rewrite <- insert_by_perm. now constructor.
Qed.

Lemma insert_by_sorted x l :
  Sorted (key_ordered key) l -> Sorted (key_ordered key) (Sections.insert_by key x l).
Proof.
  induction 1 as [|y l Hs IH Hhd]; cbn [Sections.insert_by]; [repeat constructor|].
  destruct (Sections.key_lt (key y) (key x)) eqn:E.
  - constructor; [exact IH|].
    destruct Hhd as [|z l Hyz]; cbn [Sections.insert_by].
    + constructor. unfold key_ordered. now apply key_lt_asym.
    + destruct (Sections.key_lt (key z) (key x)); constructor;
        [exact Hyz | unfold key_ordered; now apply key_lt_asym].
  - constructor; [now constructor|]. constructor. exact E.
Qed.

Lemma sorted_by_sorted l : Sorted (key_ordered key) (Sections.sorted_by key l).
Proof.
  induction l as [|x l IH]; cbn [Sections.sorted_by fold_right]; [constructor|].
  now apply insert_by_sorted.
Qed.

Lemma sorted_by_nonempty l : nonempty (Sections.sorted_by key l) = nonempty l.
Proof.
  destruct l as [|x l]; [reflexivity|].
  cbn [Sections.sorted_by fold_right nonempty].
  destruct (fold_right (Sections.insert_by key) [] l) as [|y r];
    cbn [Sections.insert_by]; [reflexivity|].
  destruct (Sections.key_lt (key y) (key x)); reflexivity.
Qed.
End SortedByFacts.

(** X19. The renderers' views of a report.  The index of wrap groups and
    the sorted iteration over conflicts hold the groups of the report, each
    exactly once, in ascending order of (class, method); [has_any] tells
    whether the report has a wrap or replace-and-wrap group; the unsorted
    iteration is the report's own order; [iter_wrap_groups] yields the
    indexed list of its kind, and nothing for any other kind. *)
Theorem sorted_views r :
  let idx := Sections.build_wrap_coexistence_index r in
  Permutation (wrap_coexistence r) (Sections.idx_wrap idx)
  /\ Sorted (key_ordered Sections.wrap_key) (Sections.idx_wrap idx)
  /\ Permutation (replace_wrap_coexistence r) (Sections.idx_replace_wrap idx)
  /\ Sorted (key_ordered Sections.replace_wrap_key) (Sections.idx_replace_wrap idx)
  /\ Sections.idx_has_any idx
     = nonempty (wrap_coexistence r) || nonempty (replace_wrap_coexistence r)
  /\ Permutation (conflicts r) (Sections.iter_conflicts r true)
  /\ Sorted (key_ordered Sections.conflict_key) (Sections.iter_conflicts r true)
  /\ Sections.iter_conflicts r false = conflicts r
  /\ Sections.iter_wrap_groups r "wrap" = map inl (Sections.idx_wrap idx)
  /\ Sections.iter_wrap_groups r "replace_wrap"
     = map inr (Sections.idx_replace_wrap idx)
  /\ (forall kind,
        kind <> "wrap" -> kind <> "replace_wrap" ->
        Sections.iter_wrap_groups r kind = []).
Proof.
  cbn zeta. unfold Sections.build_wrap_coexistence_index, Sections.iter_conflicts.
  cbn [Sections.idx_wrap Sections.idx_replace_wrap Sections.idx_has_any].
  repeat split; try apply sorted_by_perm; try apply sorted_by_sorted.
  - now rewrite !sorted_by_nonempty.
  - intros kind Hw Hr. unfold Sections.iter_wrap_groups.
    destruct (String.eqb_spec kind "wrap") as [|_]; [contradiction|].
    destruct (String.eqb_spec kind "replace_wrap") as [|_]; [contradiction|].
    reflexivity.
Qed.

Lemma sorted_views_witness :
  Sections.iter_wrap_groups (build_report same_path "/proj" two_mods) "conflicts" = [].
Proof.
  apply (proj2 (proj2 (proj2 (proj2 (proj2 (proj2 (proj2 (proj2 (proj2 (proj2
           (sorted_views (build_report same_path "/proj" two_mods))))))))))) "conflicts");
    discriminate.
Defined.

(** ** The order of the groups *)

Lemma see_key_old {K : Type} (keq : K -> K -> bool) ks k :
  existsb (fun k' => keq k' k) ks = true -> see_key keq ks k = ks.
Proof. unfold see_key. now intros ->. Qed.

Lemma see_key_new {K : Type} (keq : K -> K -> bool) ks k :
  existsb (fun k' => keq k' k) ks = false -> see_key keq ks k = (ks ++ [k])%list.
Proof. unfold see_key. now intros ->. Qed.

Section KeyOrder.
Context {K V : Type} (keq : K -> K -> bool) (dflt : V).
Hypothesis keq_eq : forall a b, keq a b = true <-> a = b.

Lemma dd_update_keys k (f : V -> V) (d : list (K * V)) :
  map fst (dd_update keq dflt k f d) = see_key keq (map fst d) k.
Proof.
  unfold see_key.
  induction d as [|[k1 v1] r IH]; cbn [dd_update map fst existsb app]; [reflexivity|].
  destruct (keq k1 k); cbn [map fst orb]; [reflexivity|].
  rewrite IH. destruct (existsb _ (map fst r)); reflexivity.
Qed.

Lemma dd_fold_keys {X : Type} (key : X -> K) (upd : X -> V -> V) xs :
  forall d,
    map fst (fold_left (fun d x => dd_update keq dflt (key x) (upd x) d) xs d)
    = fold_left (see_key keq) (map key xs) (map fst d).
Proof.
  induction xs as [|x xs IH]; intros d; cbn [fold_left map]; [reflexivity|].
  now rewrite IH, dd_update_keys.
Qed.

Lemma see_key_In ks k x : In x (see_key keq ks k) <-> In x ks \/ x = k.
Proof.
  unfold see_key. destruct (existsb _ ks) eqn:E.
  - split; [auto|]. intros [H| ->]; [assumption|].
    apply existsb_exists in E as (k' & Hin & Hk). apply keq_eq in Hk. now subst.
  - rewrite in_app_iff. cbn [In]. intuition.
Qed.

Lemma see_key_mem ks k :
  existsb (fun k' => keq k' k) ks = true <-> In k ks.
Proof.
  rewrite existsb_exists. split.
  - intros (k' & Hin & Hk). apply keq_eq in Hk. now subst.
  - intros Hin. exists k. split; [assumption | now apply keq_eq].
Qed.

Lemma fold_see_In l : forall acc x,
  In x (fold_left (see_key keq) l acc) <-> In x acc \/ In x l.
Proof.
  induction l as [|k l IH]; intros acc x; cbn [fold_left In]; [tauto|].
  rewrite IH, see_key_In. intuition.
Qed.
End KeyOrder.

Section KeyOrderMap.
Context {K1 K2 : Type} (keq1 : K1 -> K1 -> bool) (keq2 : K2 -> K2 -> bool).
Hypothesis keq1_eq : forall a b, keq1 a b = true <-> a = b.
Hypothesis keq2_eq : forall a b, keq2 a b = true <-> a = b.
Variable f : K1 -> K2.

Lemma fold_see_app (l l' : list K2) acc :
  fold_left (see_key keq2) (l ++ l') acc
  = fold_left (see_key keq2) l' (fold_left (see_key keq2) l acc).
Proof. apply fold_left_app. Qed.

(** Seeing the images of the first-seen keys is seeing the images of all
    the keys. *)
Lemma first_seen_map l :
  forall acc,
    first_seen keq2 (map f (fold_left (see_key keq1) l acc))
    = fold_left (see_key keq2) (map f l) (first_seen keq2 (map f acc)).
Proof.
  unfold first_seen.
  induction l as [|k l IH]; intros acc; cbn [fold_left map]; [reflexivity|].
  rewrite IH. f_equal.
  destruct (existsb (fun k' => keq1 k' k) acc) eqn:E.
  - rewrite (see_key_old keq1 acc k E).
    symmetry. apply see_key_old.
    apply (see_key_mem keq2 keq2_eq), (fold_see_In keq2 keq2_eq).
    right. apply in_map. now apply (see_key_mem keq1 keq1_eq).
  - rewrite (see_key_new keq1 acc k E), map_app, fold_left_app. reflexivity.
Qed.
End KeyOrderMap.

Lemma by_cm_keys es :
  map fst (group_by_cm (group_by_key es)) = first_seen key2_eqb (map class_method es).
Proof.
  unfold group_by_cm.
  assert (Hcm : forall items d,
             map fst (fold_left add_bucket items d)
             = fold_left (see_key key2_eqb)
                 (map (fun k : key3 => (snd (fst k), snd k)) (map fst items)) (map fst d)).
  { induction items as [|[[[ann cls] meth] lst] items IH]; intros d;
      cbn [fold_left map fst snd]; [reflexivity|].
    rewrite IH. unfold add_bucket. now rewrite (dd_update_keys key2_eqb no_kinds). }
  rewrite Hcm. cbn [map]. unfold group_by_key.
  rewrite (dd_fold_keys key3_eqb [] key_of (fun e l => (l ++ [e])%list)). cbn [map].
  change (fold_left (see_key key2_eqb) ?l []) with (first_seen key2_eqb l).
  rewrite (first_seen_map key3_eqb key2_eqb key3_eqb_eq key2_eqb_eq).
  unfold first_seen. cbn [map fold_left]. now rewrite map_map.
Qed.

Lemma flat_map_items {G : Type} (emit : key2 * kinds -> list G)
    (view : key2 -> list G) (d : list (key2 * kinds)) :
  (forall it, In it d -> emit it = view (fst it)) ->
  flat_map emit d = flat_map view (map fst d).
Proof.
  induction d as [|it d IH]; cbn [flat_map map]; intros H; [reflexivity|].
  rewrite (H it) by now left. rewrite IH; [reflexivity|].
  intros it' Hin. apply H. now right.
Qed.

Lemma flat_map_option {A G : Type} (p : A -> bool) (mk : A -> G) (l : list A) :
  flat_map (fun k => if p k then [mk k] else []) l = map mk (filter p l).
Proof.
  induction l as [|k l IH]; cbn [flat_map filter]; [reflexivity|].
  destruct (p k); cbn [map app]; now rewrite IH.
Qed.

Lemma distinct_count_pos {A : Type} (f : A -> string) (l : list A) :
  nonempty l = (0 <? distinct_count f l).
Proof.
  destruct l as [|x l]; [reflexivity|]. cbn [nonempty]. symmetry. apply Nat.ltb_lt.
  unfold distinct_count.
  assert (H : nodup string_dec (map f (x :: l)) <> [])
    by (apply nodup_nonempty; discriminate).
  destruct (nodup string_dec (map f (x :: l))); [contradiction | cbn; lia].
Qed.

(** X20. The three group lists, in full.  Take the (class, method) keys in
    the order in which the scan first meets them.  [conflicts] has one
    group for each key replaced in two or more files, in that order;
    [wrap_coexistence] has one for each key wrapped in two or more files;
    [replace_wrap_coexistence] has one for each key both replaced and
    wrapped. *)
Theorem groups_in_scan_order resolve root files :
  let r := build_report resolve root files in
  let keys := first_seen key2_eqb (map class_method (entries r)) in
  map Sections.conflict_key (conflicts r)
  = filter (fun k => 1 <? files_of replaceMethod (entries r) k) keys
  /\ map Sections.wrap_key (wrap_coexistence r)
     = filter (fun k => 1 <? files_of wrapMethod (entries r) k) keys
  /\ map Sections.replace_wrap_key (replace_wrap_coexistence r)
     = filter (fun k => (0 <? files_of replaceMethod (entries r) k)
                        && (0 <? files_of wrapMethod (entries r) k)) keys.
Proof.
  cbn zeta.
  set (r := build_report resolve root files).
  assert (Hkeys : map fst (group_by_cm (group_by_key (entries r)))
                  = first_seen key2_eqb (map class_method (entries r)))
    by apply by_cm_keys.
  rewrite <- Hkeys.
  assert (Hc : conflicts r = flat_map conflict_of (group_by_cm (group_by_key (entries r))))
    by reflexivity.
  assert (Hw : wrap_coexistence r
               = flat_map wrap_coexistence_of (group_by_cm (group_by_key (entries r))))
    by reflexivity.
  assert (Hrw : replace_wrap_coexistence r
                = flat_map replace_wrap_of (group_by_cm (group_by_key (entries r))))
    by reflexivity.
  rewrite Hc, Hw, Hrw. clear Hc Hw Hrw Hkeys.
  split; [|split].
  - rewrite (flat_map_items conflict_of
               (fun k => if 1 <? files_of replaceMethod (entries r) k
                         then [let occs := occurrences_of replaceMethod (fst k) (snd k)
                                             (entries r) in
                               mkConflict (fst k) (snd k) (List.length occs)
                                 (sorted_set mod_or_unknown occs) occs]
                         else [])).
    + rewrite flat_map_option, map_map. cbn [Sections.conflict_key cg_class cg_method].
      rewrite (map_ext _ (fun k => k)) by (intros [c m]; reflexivity).
      apply map_id.
    + intros [[c m] k] Hin. cbn [fst snd]. unfold conflict_of, files_of. cbn [fst snd].
      pose proof (by_cm_item resolve root files c m k Hin replaceMethod) as Hk.
      fold r in Hk. rewrite <- Hk. cbn [kind_sel].
      destruct (k_replace k); reflexivity.
  - rewrite (flat_map_items wrap_coexistence_of
               (fun k => if 1 <? files_of wrapMethod (entries r) k
                         then [let occs := occurrences_of wrapMethod (fst k) (snd k)
                                             (entries r) in
                               mkWrapCoexistence (fst k) (snd k) (List.length occs)
                                 (sorted_set mod_or_unknown occs) occs]
                         else [])).
    + rewrite flat_map_option, map_map. cbn [Sections.wrap_key wc_class wc_method].
      rewrite (map_ext _ (fun k => k)) by (intros [c m]; reflexivity).
      apply map_id.
    + intros [[c m] k] Hin. cbn [fst snd]. unfold wrap_coexistence_of, files_of.
      cbn [fst snd].
      pose proof (by_cm_item resolve root files c m k Hin wrapMethod) as Hk.
      fold r in Hk. rewrite <- Hk. cbn [kind_sel].
      destruct (k_wrap k); reflexivity.
  - rewrite (flat_map_items replace_wrap_of
               (fun k => if (0 <? files_of replaceMethod (entries r) k)
                            && (0 <? files_of wrapMethod (entries r) k)
                         then [let repl := occurrences_of replaceMethod (fst k) (snd k)
                                             (entries r) in
                               let wrap := occurrences_of wrapMethod (fst k) (snd k)
                                             (entries r) in
                               mkReplaceWrap (fst k) (snd k) (List.length repl)
                                 (List.length wrap) (sorted_set mod_or_unknown repl)
                                 (sorted_set mod_or_unknown wrap) repl wrap]
                         else [])).
    + rewrite flat_map_option, map_map. cbn [Sections.replace_wrap_key rw_class rw_method].
      rewrite (map_ext _ (fun k => k)) by (intros [c m]; reflexivity).
      apply map_id.
    + intros [[c m] k] Hin. cbn [fst snd]. unfold replace_wrap_of, files_of.
      cbn [fst snd].
      pose proof (by_cm_item resolve root files c m k Hin wrapMethod) as Hk.
      pose proof (by_cm_item resolve root files c m k Hin replaceMethod) as Hk'.
      fold r in Hk, Hk'. rewrite <- Hk, <- Hk'. cbn [kind_sel]. rewrite <- !distinct_count_pos. reflexivity.
Qed.

(** ** The annotation pattern *)

Lemma lstrip_blank ws s : blank ws -> PyStr.lstrip (ws ++ s) = PyStr.lstrip s.
Proof.
  unfold blank. induction ws as [|c ws IH]; cbn [String.append all_chars PyStr.lstrip];
    [reflexivity|].
  rewrite andb_true_iff. intros [-> H]. now apply IH.
Qed.

Lemma lstrip_split s :
  exists ws, blank ws /\ s = (ws ++ PyStr.lstrip s)%string.
Proof.
  unfold blank. induction s as [|c s (ws & Hws & Hs)]; cbn [PyStr.lstrip].
  - now exists EmptyString.
  - destruct (PyStr.isspace c) eqn:E.
    + exists (String c ws). cbn [all_chars String.append]. rewrite E, Hws.
      split; [reflexivity | now f_equal].
    + now exists EmptyString.
Qed.

Lemma lstrip_empty_blank s : PyStr.lstrip s = EmptyString <-> blank s.
Proof.
  unfold blank. induction s as [|c s IH]; cbn [PyStr.lstrip all_chars]; [tauto|].
  destruct (PyStr.isspace c); cbn [andb]; [exact IH|].
  split; discriminate.
Qed.

Lemma drop_append p r : PyStr.drop (String.length p) (p ++ r) = r.
Proof. induction p as [|c p IH]; cbn; [now destruct r | exact IH]. Qed.

Lemma strip_prefix_append p r : Scanner.strip_prefix p (p ++ r) = Some r.
Proof.
  unfold Scanner.strip_prefix.
  replace (prefix p (p ++ r)) with true by (symmetry; apply prefix_spec; eauto).
  now rewrite drop_append.
Qed.

Lemma strip_prefix_inv p s r : Scanner.strip_prefix p s = Some r -> s = (p ++ r)%string.
Proof.
  unfold Scanner.strip_prefix. destruct (prefix p s) eqn:E; [|discriminate].
  apply prefix_spec in E as [r' ->]. rewrite drop_append. now intros [= ->].
Qed.

Lemma annotation_name_text a rest :
  Scanner.annotation_name (annotation_text a ++ rest) = Some (a, rest).
Proof.
  unfold Scanner.annotation_name.
  destruct a; cbn [annotation_text].
  - now rewrite strip_prefix_append.
  - change (Scanner.strip_prefix "replaceMethod" ("wrapMethod" ++ rest)) with (@None string).
    now rewrite strip_prefix_append.
  - change (Scanner.strip_prefix "replaceMethod" ("replaceGlobal" ++ rest))
      with (@None string).
    change (Scanner.strip_prefix "wrapMethod" ("replaceGlobal" ++ rest))
      with (@None string).
    now rewrite strip_prefix_append.
Qed.

Lemma annotation_name_inv s a rest :
  Scanner.annotation_name s = Some (a, rest) -> s = (annotation_text a ++ rest)%string.
Proof.
  unfold Scanner.annotation_name.
  destruct (Scanner.strip_prefix "replaceMethod" s) as [r|] eqn:E1.
  { intros [= <- <-]. now apply strip_prefix_inv. }
  destruct (Scanner.strip_prefix "wrapMethod" s) as [r|] eqn:E2.
  { intros [= <- <-]. now apply strip_prefix_inv. }
  destruct (Scanner.strip_prefix "replaceGlobal" s) as [r|] eqn:E3; [|discriminate].
  intros [= <- <-]. now apply strip_prefix_inv.
Qed.

Lemma until_rparen_append g rest :
  no_rparen g -> Scanner.until_rparen (g ++ String ")"%char rest) = Some (g, rest).
Proof.
  unfold no_rparen.
  induction g as [|c g IH]; cbn [String.append all_chars Scanner.until_rparen].
  - reflexivity.
  - rewrite andb_true_iff, negb_true_iff. intros [-> H]. now rewrite IH.
Qed.

Lemma until_rparen_inv s : forall g rest,
  Scanner.until_rparen s = Some (g, rest) ->
  no_rparen g /\ s = (g ++ String ")"%char rest)%string.
Proof.
  unfold no_rparen.
  induction s as [|c s IH]; cbn [Scanner.until_rparen]; intros g rest; [discriminate|].
  destruct (Ascii.eqb c ")"%char) eqn:E.
  - intros [= <- <-]. apply Ascii.eqb_eq in E. subst c. split; reflexivity.
  - destruct (Scanner.until_rparen s) as [[g' rest']|]; [|discriminate].
    intros [= <- <-]. destruct (IH g' rest' eq_refl) as [Hg ->].
    cbn [all_chars String.append]. rewrite E, Hg. split; reflexivity.
Qed.

Lemma lstrip_at s : PyStr.lstrip ("@" ++ s) = String "@"%char s.
Proof. reflexivity. Qed.

Lemma lstrip_lparen s : PyStr.lstrip ("(" ++ s) = String "("%char s.
Proof. reflexivity. Qed.

(** X21. The annotation pattern accepts exactly the lines made of
    optional white space, [@], one of the three annotation names, optional
    white space, an opening parenthesis, any text without a closing
    parenthesis, a closing parenthesis and optional white space; it
    returns the name and that text. *)
Theorem annotation_pattern line a g :
  Scanner.ANNOTATION_RE line = Some (a, g)
  <-> exists ws1 ws2 ws3,
        blank ws1 /\ blank ws2 /\ blank ws3 /\ no_rparen g
        /\ line = (ws1 ++ "@" ++ annotation_text a ++ ws2 ++ "(" ++ g ++ ")" ++ ws3)%string.
Proof.
  unfold Scanner.ANNOTATION_RE. split.
  - destruct (lstrip_split line) as (ws1 & Hws1 & Hline).
    destruct (PyStr.lstrip line) as [|c r]; [discriminate|].
    destruct (Ascii.eqb_spec c "@"%char) as [->|Hc];
      [|destruct c as [[] [] [] [] [] [] [] []]; try discriminate; now contradiction Hc].
    destruct (Scanner.annotation_name r) as [[a' r1]|] eqn:Ename; [|discriminate].
    apply annotation_name_inv in Ename.
    destruct (lstrip_split r1) as (ws2 & Hws2 & Hr1).
    destruct (PyStr.lstrip r1) as [|c2 r2]; [discriminate|].
    destruct (Ascii.eqb_spec c2 "("%char) as [->|Hc2];
      [|destruct c2 as [[] [] [] [] [] [] [] []]; try discriminate; now contradiction Hc2].
    destruct (Scanner.until_rparen r2) as [[g' rest]|] eqn:Eg; [|discriminate].
    apply until_rparen_inv in Eg as [Hg Hr2].
    destruct (PyStr.lstrip rest =? "")%string eqn:Erest; [|discriminate].
    apply String.eqb_eq, lstrip_empty_blank in Erest.
    intros [= <- <-]. exists ws1, ws2, rest. repeat split; try assumption.
    rewrite Hline, Ename, Hr1, Hr2. reflexivity.
  - intros (ws1 & ws2 & ws3 & H1 & H2 & H3 & Hg & ->).
    rewrite (lstrip_blank ws1 _ H1), lstrip_at. cbv beta iota.
    rewrite annotation_name_text, (lstrip_blank ws2 _ H2), lstrip_lparen.
    cbv beta iota.
    change (g ++ ")" ++ ws3)%string with (g ++ String ")"%char ws3)%string.
    rewrite (until_rparen_append g ws3 Hg).
    apply lstrip_empty_blank in H3. now rewrite H3.
Qed.

Lemma annotation_pattern_witness :
  Scanner.ANNOTATION_RE "  @wrapMethod (Foo, Bar) " = Some (wrapMethod, "Foo, Bar").
Proof.
  apply (proj2 (annotation_pattern "  @wrapMethod (Foo, Bar) " wrapMethod "Foo, Bar")).
  exists "  ", " ", " ". repeat split; reflexivity.
Defined.

(** ** Function declarations *)

Lemma span_split p s a b :
  Scanner.span p s = (a, b) -> s = (a ++ b)%string /\ all_chars p a = true.
Proof.
  revert a b. induction s as [|c s IH]; cbn [Scanner.span]; intros a b.
  - intros [= <- <-]. split; reflexivity.
  - destruct (p c) eqn:E.
    + destruct (Scanner.span p s) as [a' b']. intros [= <- <-].
      destruct (IH a' b' eq_refl) as [-> Ha].
      cbn [String.append all_chars]. rewrite E, Ha. split; reflexivity.
    + intros [= <- <-]. split; reflexivity.
Qed.

Lemma func_at_shape s m :
  Scanner.func_at s = Some m ->
  m <> EmptyString /\ all_chars PyStr.is_word m = true
  /\ exists ws ws2 rest,
       ws <> EmptyString /\ blank ws /\ blank ws2
       /\ s = ("func" ++ ws ++ m ++ ws2 ++ "(" ++ rest)%string.
Proof.
  unfold Scanner.func_at.
  destruct (Scanner.strip_prefix "func" s) as [r|] eqn:Ep; [|discriminate].
  apply strip_prefix_inv in Ep.
  destruct (Scanner.span PyStr.isspace r) as [ws r1] eqn:Ews.
  apply span_split in Ews as [Hr Hws].
  destruct (String.eqb_spec ws "") as [|Hne]; [discriminate|].
  destruct (Scanner.span PyStr.is_word r1) as [name r2] eqn:En.
  apply span_split in En as [Hr1 Hname].
  destruct (String.eqb_spec name "") as [|Hnn]; [discriminate|].
  destruct (lstrip_split r2) as (ws2 & Hws2 & Hr2).
  destruct (PyStr.lstrip r2) as [|c rest]; [discriminate|].
  destruct (Ascii.eqb_spec c "("%char) as [->|Hc];
    [|destruct c as [[] [] [] [] [] [] [] []]; try discriminate; now contradiction Hc].
  intros [= <-]. repeat split; try assumption.
  exists ws, ws2, rest. repeat split; try assumption.
  rewrite Ep, Hr, Hr1, Hr2. reflexivity.
Qed.

Lemma FUNC_RE_from_shape s : forall prev m,
  Scanner.FUNC_RE_from prev s = Some m ->
  exists before tail, s = (before ++ tail)%string /\ Scanner.func_at tail = Some m.
Proof.
  induction s as [|c s IH]; intros prev m; cbn [Scanner.FUNC_RE_from].
  - destruct prev; [discriminate|].
    destruct (Scanner.func_at "") eqn:E; [|discriminate].
    intros [= ->]. now exists EmptyString, EmptyString.
  - destruct (if prev then None else Scanner.func_at (String c s)) as [name|] eqn:E.
    + intros [= ->]. destruct prev; [discriminate|].
      now exists EmptyString, (String c s).
    + intros H. destruct (IH _ _ H) as (before & tail & -> & Ht).
      now exists (String c before), tail.
Qed.

(** X22. A method name read from a function declaration is a non-empty
    run of letters, digits and underscores; in the line it follows the word
    [func] and white space, and an opening parenthesis follows it, after
    optional white space. *)
Theorem method_name_shape line m :
  Scanner.FUNC_RE line = Some m ->
  m <> EmptyString /\ all_chars PyStr.is_word m = true
  /\ exists before ws ws2 rest,
       ws <> EmptyString /\ blank ws /\ blank ws2
       /\ line = (before ++ "func" ++ ws ++ m ++ ws2 ++ "(" ++ rest)%string.
Proof.
  unfold Scanner.FUNC_RE. intros H.
  destruct (FUNC_RE_from_shape line false m H) as (before & tail & -> & Ht).
  destruct (func_at_shape tail m Ht) as (Hne & Hw & ws & ws2 & rest & H1 & H2 & H3 & ->).
  split; [assumption|]. split; [assumption|].
  exists before, ws, ws2, rest. repeat split; assumption.
Qed.

Lemma method_name_shape_witness :
  "OnUpdate" <> EmptyString /\ all_chars PyStr.is_word "OnUpdate" = true
  /\ exists before ws ws2 rest,
       ws <> EmptyString /\ blank ws /\ blank ws2
       /\ "  protected cb func  OnUpdate (dt: Float) -> Bool {"
          = (before ++ "func" ++ ws ++ "OnUpdate" ++ ws2 ++ "(" ++ rest)%string.
Proof.
  apply (method_name_shape "  protected cb func  OnUpdate (dt: Float) -> Bool {" "OnUpdate").
  reflexivity.
Defined.

(** ** One file *)

Lemma nodup_constant (p : string) (l : list string) :
  Forall (fun x => x = p) l -> List.length (nodup string_dec l) <= 1.
Proof.
  induction 1 as [|x l Hx Hl IH]; cbn [nodup List.length]; [lia|].
  destruct (in_dec string_dec x l) as [|Hn]; [exact IH|].
  destruct l as [|y l]; [cbn; lia|].
  exfalso. apply Hn. inversion Hl; subst. now left.
Qed.

Lemma single_file_entries resolve root path content e :
  In e (entries (build_report resolve root [(path, content)])) -> occ_file e = path.
Proof.
  unfold build_report. cbn [entries flat_map fst snd]. rewrite app_nil_r.
  intros Hin. apply in_map_iff in Hin as (e0 & <- & Hin). rewrite enrich_file.
  destruct content as [text|]; [|destruct Hin].
  exact (proj1 (scan_file_justified path text e0 Hin)).
Qed.

Lemma single_file_distinct resolve root path content a c m :
  distinct_count occ_file
    (occurrences_of a c m (entries (build_report resolve root [(path, content)]))) <= 1.
Proof.
  unfold distinct_count. apply (nodup_constant path).
  apply Forall_forall. intros f Hf. apply in_map_iff in Hf as (e & <- & He).
  apply filter_In in He as [He _]. exact (single_file_entries _ _ _ _ _ He).
Qed.

Lemma no_member_nil {A : Type} (l : list A) : (forall x, ~ In x l) -> l = [].
Proof. destruct l as [|x l]; [reflexivity|]. intros H. exfalso. apply (H x). now left. Qed.

(** X23. A scan that finds a single file reports neither a conflict nor a
    wrap coexistence, however many annotations the file holds. *)
Theorem single_file_no_conflict resolve root path content :
  conflicts (build_report resolve root [(path, content)]) = []
  /\ wrap_coexistence (build_report resolve root [(path, content)]) = [].
Proof.
  split; apply no_member_nil; intros g Hg.
  - assert (Hin := Hg). unfold build_report in Hin. cbn [conflicts] in Hin.
    apply in_flat_map in Hin as ([[c m] k] & Hitem & Hin).
    pose proof (by_cm_item resolve root [(path, content)] c m k Hitem replaceMethod) as Hk.
    cbn [kind_sel] in Hk. unfold conflict_of in Hin.
    pose proof (single_file_distinct resolve root path content replaceMethod c m) as Hd.
    rewrite <- Hk in Hd.
    destruct (Nat.ltb_spec 1 (distinct_count occ_file (k_replace k))); [lia|].
    rewrite andb_false_r in Hin. exact Hin.
  - assert (Hin := Hg). unfold build_report in Hin. cbn [wrap_coexistence] in Hin.
    apply in_flat_map in Hin as ([[c m] k] & Hitem & Hin).
    pose proof (by_cm_item resolve root [(path, content)] c m k Hitem wrapMethod) as Hk.
    cbn [kind_sel] in Hk. unfold wrap_coexistence_of in Hin.
    pose proof (single_file_distinct resolve root path content wrapMethod c m) as Hd.
    rewrite <- Hk in Hd.
    destruct (Nat.ltb_spec 1 (distinct_count occ_file (k_wrap k))); [lia|].
    rewrite andb_false_r in Hin. exact Hin.
Qed.
